(** * Educate App frontend: the storefront controller of [src/app.js]

    A shallow embedding of the Vue component's state ([data]), its derived
    views ([computed]) and its operations ([methods]), followed by the
    properties of the search, sort, cart and checkout logic.

    Modelling conventions.
    - A JavaScript string is a [string]; [toLowerCase] and the relational
      operators on strings are the ASCII ones (the code units of the
      strings are taken to be below 128).
    - A JavaScript number is an integer [Num z] or [NaN]; fractions and
      infinities are left out, except in the module [Double], where the
      prices are the binary64 numbers of the language and the cart total
      is their rounded sum.  An object property is an [option]: [None]
      is [undefined] (the property is absent).
    - The objects of [this.lessons] are shared with the template, which
      hands them back to [addToCart]; a reference to such an object is its
      position in [this.lessons].
    - [fetch], [alert] and [console.error] are effects on a [World] that
      records them; the backend is a function from the requests sent so
      far and the current request to a reply.  An [async] method runs to
      completion without other events in between. *)

From Stdlib Require Import ZArith String Ascii DecimalString Permutation Sorted.
From Stdlib Require Import PrimFloat.
From stdpp Require Import base list strings.

Local Open Scope string_scope.
Local Open Scope Z_scope.

(** ** JavaScript primitives *)

Inductive number := NaN | Num (z : Z).

#[global] Instance number_eq_dec : EqDecision number.
Proof. solve_decision. Defined.

Module JS.

(** [c] lies in the character range [lo-hi]. *)
Definition in_range (lo hi c : ascii) : bool :=
  ((nat_of_ascii lo <=? nat_of_ascii c) && (nat_of_ascii c <=? nat_of_ascii hi))%nat.

Definition lower_char (c : ascii) : ascii :=
  if in_range "A" "Z" c then ascii_of_nat (nat_of_ascii c + 32) else c.

(** [s.toLowerCase()] *)
Fixpoint toLowerCase (s : string) : string :=
  match s with
  | EmptyString => EmptyString
  | String c s' => String (lower_char c) (toLowerCase s')
  end.

(** [s.startsWith(t)] *)
Fixpoint startsWith (s t : string) : bool :=
  match t, s with
  | EmptyString, _ => true
  | String _ _, EmptyString => false
  | String b t', String a s' => if decide (a = b) then startsWith s' t' else false
  end.

(** [s.includes(t)] *)
Fixpoint includes (s t : string) : bool :=
  startsWith s t ||
  match s with
  | EmptyString => false
  | String _ s' => includes s' t
  end.

(** [String(n)] for an integer-valued number. *)
Definition string_of_Z (z : Z) : string := NilZero.string_of_int (Z.to_int z).

(** [String(v || "")] for a text property [v]: [undefined] and the empty
    string are falsy. *)
Definition text_or_empty (v : option string) : string :=
  match v with
  | Some s => s
  | None => ""
  end.

(** [String(v || "")] for a numeric property [v]: [undefined], [NaN] and
    [0] are falsy, so each of them gives the empty string. *)
Definition number_or_empty (v : option number) : string :=
  match v with
  | Some (Num z) => if z =? 0 then "" else string_of_Z z
  | Some NaN => ""
  | None => ""
  end.

(** [v || 0] for a numeric property [v]. *)
Definition number_or_zero (v : option number) : Z :=
  match v with
  | Some (Num z) => z
  | Some NaN => 0
  | None => 0
  end.

(** [v <= 0]: [undefined] converts to [NaN], and every comparison with
    [NaN] is false. *)
Definition le_zero (v : option number) : bool :=
  match v with
  | Some (Num z) => z <=? 0
  | Some NaN => false
  | None => false
  end.

(** [v + d] when [d] is a number and the property [v] holds a number or
    is [undefined]. *)
Definition plus (v : option number) (d : Z) : option number :=
  match v with
  | Some (Num z) => Some (Num (z + d))
  | Some NaN => Some NaN
  | None => Some NaN
  end.

(** [a > b] and [a < b] on strings: lexicographic on the code units. *)
Definition string_gt (a b : string) : bool :=
  match String.compare a b with Gt => true | _ => false end.

Definition string_lt (a b : string) : bool :=
  match String.compare a b with Lt => true | _ => false end.

End JS.

(** ** Data model *)

(** A lesson of the catalog: [{ subject, location, price, spaces, image }]. *)
Module Lesson.
Record t := mk {
  subject : option string;
  location : option string;
  price : option number;
  spaces : option number;
  image : option string
}.

(** [lesson.spaces = v] *)
Definition set_spaces (v : option number) (l : t) : t :=
  mk (subject l) (location l) (price l) v (image l).
End Lesson.

(** A cart entry, one per seat: [{ subject, location, price }]. *)
Module Item.
Record t := mk {
  subject : option string;
  location : option string;
  price : option number
}.
End Item.

Record Customer := mkCustomer {
  name : string;
  phone : string
}.

#[global] Instance Lesson_eq_dec : EqDecision Lesson.t.
Proof. solve_decision. Defined.

#[global] Instance Item_eq_dec : EqDecision Item.t.
Proof. solve_decision. Defined.

(** The component's [data()]. *)
Record App := mkApp {
  apiBase : string;
  view : string;
  searchQuery : string;
  sortAttribute : string;
  sortDir : string;
  lessons : list Lesson.t;
  cart : list Item.t;
  customer : Customer;
  orderMessage : string
}.

Definition initial : App :=
  {| apiBase := "https://educate-app-backend.onrender.com/api";
     view := "lessons";
     searchQuery := "";
     sortAttribute := "subject";
     sortDir := "asc";
     lessons := [];
     cart := [];
     customer := mkCustomer "" "";
     orderMessage := "" |}.

Definition set_view (v : string) (s : App) : App :=
  mkApp (apiBase s) v (searchQuery s) (sortAttribute s) (sortDir s)
        (lessons s) (cart s) (customer s) (orderMessage s).

Definition set_lessons (v : list Lesson.t) (s : App) : App :=
  mkApp (apiBase s) (view s) (searchQuery s) (sortAttribute s) (sortDir s)
        v (cart s) (customer s) (orderMessage s).

Definition set_cart (v : list Item.t) (s : App) : App :=
  mkApp (apiBase s) (view s) (searchQuery s) (sortAttribute s) (sortDir s)
        (lessons s) v (customer s) (orderMessage s).

Definition set_customer (v : Customer) (s : App) : App :=
  mkApp (apiBase s) (view s) (searchQuery s) (sortAttribute s) (sortDir s)
        (lessons s) (cart s) v (orderMessage s).

Definition set_orderMessage (v : string) (s : App) : App :=
  mkApp (apiBase s) (view s) (searchQuery s) (sortAttribute s) (sortDir s)
        (lessons s) (cart s) (customer s) v.

(** ** Computed views: search *)

(** The test of one loop iteration of [searchedLessons] when the term is
    not empty. *)
Definition lesson_matches (term : string) (lesson : Lesson.t) : bool :=
  let subjectText := JS.toLowerCase (JS.text_or_empty (Lesson.subject lesson)) in
  let locationText := JS.toLowerCase (JS.text_or_empty (Lesson.location lesson)) in
  let priceText := JS.toLowerCase (JS.number_or_empty (Lesson.price lesson)) in
  let spacesText := JS.toLowerCase (JS.number_or_empty (Lesson.spaces lesson)) in
  JS.includes subjectText term
  || JS.includes locationText term
  || JS.includes priceText term
  || JS.includes spacesText term.

(** One iteration of the [for ... of] loop: [filtered.push(lesson)] or
    nothing. *)
Definition search_step (term : string) (filtered : list Lesson.t) (lesson : Lesson.t)
  : list Lesson.t :=
  if decide (term = "") then filtered ++ [lesson]
  else if lesson_matches term lesson then filtered ++ [lesson]
  else filtered.

Definition searchedLessons (s : App) : list Lesson.t :=
  let term := JS.toLowerCase (searchQuery s) in
  fold_left (search_step term) (lessons s) [].

(** ** Computed views: sort *)

(** What [getSortValue] returns: a lower-cased text or a number. *)
Inductive SortValue :=
| Text (s : string)
| Numeric (z : Z).

Definition getSortValue (s : App) (lesson : Lesson.t) : SortValue :=
  if decide (sortAttribute s = "subject") then
    Text (JS.toLowerCase (JS.text_or_empty (Lesson.subject lesson)))
  else if decide (sortAttribute s = "location") then
    Text (JS.toLowerCase (JS.text_or_empty (Lesson.location lesson)))
  else if decide (sortAttribute s = "price") then
    Numeric (JS.number_or_zero (Lesson.price lesson))
  else if decide (sortAttribute s = "spaces") then
    Numeric (JS.number_or_zero (Lesson.spaces lesson))
  else Numeric 0.

(** [aVal > bVal] and [aVal < bVal].  Both values of one comparison come
    from the same attribute, so they are two texts or two numbers (lemma
    [getSortValue_same_kind]); the mixed cases never arise. *)
Definition value_gt (a b : SortValue) : bool :=
  match a, b with
  | Text x, Text y => JS.string_gt x y
  | Numeric x, Numeric y => x >? y
  | _, _ => false
  end.

Definition value_lt (a b : SortValue) : bool :=
  match a, b with
  | Text x, Text y => JS.string_lt x y
  | Numeric x, Numeric y => x <? y
  | _, _ => false
  end.

(** The comparator handed to [list.sort]. *)
Definition compareLessons (s : App) (a b : Lesson.t) : Z :=
  let aVal := getSortValue s a in
  let bVal := getSortValue s b in
  if value_gt aVal bVal then 1
  else if value_lt aVal bVal then -1
  else 0.

(** [Array.prototype.sort(cmp)] is a stable sort: an element moves behind
    another one only when the comparator is positive on the pair.  With a
    consistent comparator every stable sort gives the same list; it is
    computed here by insertion. *)
Section ArraySort.
Context {A : Type} (cmp : A → A → Z).

Fixpoint sort_insert (x : A) (l : list A) : list A :=
  match l with
  | [] => [x]
  | y :: l' => if 0 <? cmp x y then y :: sort_insert x l' else x :: y :: l'
  end.

Definition array_sort (l : list A) : list A := foldr sort_insert [] l.
End ArraySort.

Definition sortedLessons (s : App) : list Lesson.t :=
  let list := array_sort (compareLessons s) (searchedLessons s) in
  if decide (sortDir s = "desc") then rev list else list.

Definition displayedLessons (s : App) : list Lesson.t := sortedLessons s.

(** ** Computed views: cart and checkout form *)

Definition cartCount (s : App) : Z := Z.of_nat (length (cart s)).

Definition cartTotal (s : App) : Z :=
  fold_left (fun sum item => sum + JS.number_or_zero (Item.price item)) (cart s) 0.

(** A character class [[lo1-hi1 lo2-hi2 ...]] and the test of
    [/^[class]+$/]: at least one character, every character in the class. *)
Definition CharClass := list (ascii * ascii).

Definition class_mem (cls : CharClass) (c : ascii) : bool :=
  existsb (λ r, JS.in_range r.1 r.2 c) cls.

Fixpoint all_in_class (cls : CharClass) (s : string) : bool :=
  match s with
  | EmptyString => true
  | String c s' => class_mem cls c && all_in_class cls s'
  end.

Definition test_class_plus (cls : CharClass) (s : string) : bool :=
  match s with
  | EmptyString => false
  | String _ _ => all_in_class cls s
  end.

(** [[A-Za-z ]] and [[0-9]] *)
Definition letters_or_space : CharClass :=
  [("A", "Z"); ("a", "z"); (" ", " ")]%char.

Definition digits : CharClass := [("0", "9")]%char.

Definition isCheckoutValid (s : App) : bool :=
  let nameOK := test_class_plus letters_or_space (name (customer s)) in
  let phoneOK := test_class_plus digits (phone (customer s)) in
  nameOK && phoneOK && (0 <? Z.of_nat (length (cart s))).

(** ** Methods: navigation and cart *)

Definition go (page : string) (s : App) : App := set_view page s.

(** The snapshot pushed on the cart by [addToCart]. *)
Definition seat_of (lesson : Lesson.t) : Item.t :=
  {| Item.subject := Lesson.subject lesson;
     Item.location := Lesson.location lesson;
     Item.price := Lesson.price lesson |}.

(** [addToCart(lesson)].  The argument is [None] for a missing lesson and
    [Some i] for the object at position [i] of [this.lessons]; a position
    past the end designates no object and nothing happens. *)
Definition addToCart (lesson : option nat) (s : App) : App :=
  match lesson with
  | None => s
  | Some i =>
      match lessons s !! i with
      | None => s
      | Some l =>
          if JS.le_zero (Lesson.spaces l) then s
          else
            let l' := Lesson.set_spaces (JS.plus (Lesson.spaces l) (-1)) l in
            set_cart (cart s ++ [seat_of l']) (set_lessons (<[i := l']> (lessons s)) s)
      end
  end.

(** The predicate of [this.lessons.find] in [removeOne] and [checkout]:
    [l.subject === item.subject && l.location === item.location]. *)
Definition same_key (item : Item.t) (l : Lesson.t) : Prop :=
  Lesson.subject l = Item.subject item ∧ Lesson.location l = Item.location item.

#[global] Instance same_key_dec item l : Decision (same_key item l).
Proof. unfold same_key. apply _. Defined.

(** [this.lessons.find(...)]: the first match with its position, which
    stands for the reference to the object found. *)
Definition find_lesson (item : Item.t) (ls : list Lesson.t) : option (nat * Lesson.t) :=
  list_find (same_key item) ls.

(** [removeOne(index, item)]; [splice(index, 1)] deletes the entry at an
    index within bounds. *)
Definition removeOne (index : Z) (item : Item.t) (s : App) : App :=
  if (index <? 0) || (index >=? Z.of_nat (length (cart s))) then s
  else
    let s1 := set_cart (delete (Z.to_nat index) (cart s)) s in
    match find_lesson item (lessons s1) with
    | Some (i, lesson) =>
        set_lessons
          (<[i := Lesson.set_spaces (JS.plus (Lesson.spaces lesson) 1) lesson]> (lessons s1)) s1
    | None => s1
    end.

(** ** Effects: the backend, notifications and the console *)

(** The body of [POST /order]: [{ name, phone, items, total }]. *)
Module Order.
Record t := mk {
  name : string;
  phone : string;
  items : list Item.t;
  total : Z
}.
End Order.

(** What [JSON.stringify] is applied to. *)
Inductive Body :=
| NoBody
| OrderBody (order : Order.t)
| SpacesBody (subject location : option string) (spaces : option number).

(** One call of [fetch(url, { method, body })]. *)
Record Request := mkRequest {
  method : string;
  url : string;
  body : Body
}.

(** What the call gives back: the promise rejects (no connection), or it
    resolves with a response whose [ok] says whether the status is 2xx and
    whose [json()] gives a list of lessons or rejects ([None]). *)
Record Response := mkResponse {
  ok : bool;
  json : option (list Lesson.t)
}.

Inductive Reply :=
| Rejected (reason : string)
| Resolved (res : Response).

(** The backend, seen from the browser. *)
Definition Server := list Request → Request → Reply.

Record World := mkWorld {
  sent : list Request;
  alerts : list string;
  console : list (string * string)
}.

Definition quiet : World := mkWorld [] [] [].

Inductive Outcome (A : Type) :=
| Fulfilled (a : A)
| Threw (err : string).
Arguments Fulfilled {A} a.
Arguments Threw {A} err.

(** An [async] computation on the component and the world. *)
Definition Async (A : Type) : Type := App * World → Outcome A * (App * World).

#[global] Instance Async_ret : MRet Async := λ A a m, (Fulfilled a, m).

#[global] Instance Async_bind : MBind Async := λ A B f c m,
  match c m with
  | (Fulfilled a, m') => f a m'
  | (Threw err, m') => (Threw err, m')
  end.

Definition throw {A} (err : string) : Async A := λ m, (Threw err, m).

(** [try { body } catch (err) { handler }] *)
Definition try_catch {A} (body : Async A) (handler : string → Async A) : Async A := λ m,
  match body m with
  | (Fulfilled a, m') => (Fulfilled a, m')
  | (Threw err, m') => handler err m'
  end.

(** Reading and assigning [this]. *)
Definition this : Async App := λ m, (Fulfilled m.1, m).

Definition assign (f : App → App) : Async unit := λ m, (Fulfilled tt, (f m.1, m.2)).

Definition alert (msg : string) : Async unit := λ m,
  (Fulfilled tt, (m.1, mkWorld (sent m.2) (alerts m.2 ++ [msg]) (console m.2))).

Definition console_error (label err : string) : Async unit := λ m,
  (Fulfilled tt, (m.1, mkWorld (sent m.2) (alerts m.2) (console m.2 ++ [(label, err)]))).

(** [for (const x of l) { body }] *)
Fixpoint for_of {A} (l : list A) (body : A → Async unit) : Async unit :=
  match l with
  | [] => mret tt
  | x :: l' => body x;; for_of l' body
  end.

Section Methods.
Variable server : Server.

(** [await fetch(...)] *)
Definition fetch (req : Request) : Async Response := λ m,
  let w := mkWorld (sent m.2 ++ [req]) (alerts m.2) (console m.2) in
  match server (sent m.2) req with
  | Rejected reason => (Threw reason, (m.1, w))
  | Resolved res => (Fulfilled res, (m.1, w))
  end.

(** [await res.json()] *)
Definition await_json (res : Response) : Async (list Lesson.t) :=
  match json res with
  | Some data => mret data
  | None => throw "SyntaxError"
  end.

Definition loadLessons : Async unit :=
  try_catch
    (s ← this;
     res ← fetch (mkRequest "GET" (apiBase s ++ "/lessons") NoBody);
     if negb (ok res) then throw "Failed to fetch lessons"
     else
       data ← await_json res;
       assign (set_lessons data))
    (λ err,
       console_error "Could not load lessons:" err;;
       alert "Could not load lessons.").

(** One iteration of the update loop of [checkout]. *)
Definition put_spaces (item : Item.t) : Async unit :=
  s ← this;
  match find_lesson item (lessons s) with
  | None => mret tt
  | Some (_, lesson) =>
      fetch (mkRequest "PUT" (apiBase s ++ "/lessons")
               (SpacesBody (Item.subject item) (Item.location item)
                  (Lesson.spaces lesson)));;
      mret tt
  end.

Definition checkout : Async unit :=
  s ← this;
  if negb (isCheckoutValid s) then mret tt
  else
    let order :=
      {| Order.name := name (customer s);
         Order.phone := phone (customer s);
         Order.items := cart s;
         Order.total := cartTotal s |} in
    try_catch
      (res ← fetch (mkRequest "POST" (apiBase s ++ "/order") (OrderBody order));
       if negb (ok res) then throw "Order failed"
       else
         s1 ← this;
         for_of (cart s1) put_spaces;;
         assign (set_orderMessage "Order submitted!");;
         assign (set_cart []);;
         assign (set_customer (mkCustomer "" ""));;
         loadLessons)
      (λ err,
         console_error "Error submitting order:" err;;
         alert "There was a problem submitting your order.").

(** [mounted()] *)
Definition mounted : Async unit := loadLessons.

(** The component and the world once the method has settled. *)
Definition after (c : Async unit) (s : App) (w : World) : App * World := (c (s, w)).2.
End Methods.

(** ** Methods: image URL *)

Section Images.
(** [new URL(base).origin] as the browser computes it: [None] when the
    constructor throws on a malformed [base]. *)
Variable URL_origin : string → option string.

Definition backendOrigin (s : App) : string :=
  match URL_origin (apiBase s) with
  | Some origin => origin
  | None => ""
  end.

(** [imageUrl(src)]; [src] is [None] when the lesson has no image. *)
Definition imageUrl (src : option string) (s : App) : string :=
  match src with
  | None => ""
  | Some path =>
      if decide (path = "") then ""
      else if JS.startsWith path "images/" then (backendOrigin s ++ "/") ++ path
      else path
  end.
End Images.

Definition set_searchQuery (v : string) (s : App) : App :=
  mkApp (apiBase s) (view s) v (sortAttribute s) (sortDir s)
        (lessons s) (cart s) (customer s) (orderMessage s).

Definition set_sortAttribute (v : string) (s : App) : App :=
  mkApp (apiBase s) (view s) (searchQuery s) v (sortDir s)
        (lessons s) (cart s) (customer s) (orderMessage s).

Definition set_sortDir (v : string) (s : App) : App :=
  mkApp (apiBase s) (view s) (searchQuery s) (sortAttribute s) v
        (lessons s) (cart s) (customer s) (orderMessage s).

(** ** The cart with prices as doubles

    The cart methods and [cartTotal] once more, on the part of [this]
    they read and write, with every price a binary64 number as in the
    language: [sum + (item.price || 0)] rounds at each step. *)
Module Double.

(** [v || 0] for a price: [undefined], [NaN], [0] and [-0] are falsy. *)
Definition price_or_zero (v : option float) : float :=
  match v with
  | Some p => if PrimFloat.is_nan p || PrimFloat.is_zero p then 0%float else p
  | None => 0%float
  end.

Module Lesson.
Record t := mk {
  subject : option string;
  location : option string;
  price : option float;
  spaces : option number;
  image : option string
}.

Definition set_spaces (v : option number) (l : t) : t :=
  mk (subject l) (location l) (price l) v (image l).
End Lesson.

Module Item.
Record t := mk {
  subject : option string;
  location : option string;
  price : option float
}.
End Item.

(** [this.lessons] and [this.cart]. *)
Record Store := mkStore {
  lessons : list Lesson.t;
  cart : list Item.t
}.

Definition cartTotal (s : Store) : float :=
  fold_left (λ sum item, PrimFloat.add sum (price_or_zero (Item.price item)))
    (cart s) 0%float.

Definition seat_of (lesson : Lesson.t) : Item.t :=
  {| Item.subject := Lesson.subject lesson;
     Item.location := Lesson.location lesson;
     Item.price := Lesson.price lesson |}.

Definition addToCart (lesson : option nat) (s : Store) : Store :=
  match lesson with
  | None => s
  | Some i =>
      match lessons s !! i with
      | None => s
      | Some l =>
          if JS.le_zero (Lesson.spaces l) then s
          else
            let l' := Lesson.set_spaces (JS.plus (Lesson.spaces l) (-1)) l in
            mkStore (<[i := l']> (lessons s)) (cart s ++ [seat_of l'])
      end
  end.

Definition same_key (item : Item.t) (l : Lesson.t) : Prop :=
  Lesson.subject l = Item.subject item ∧ Lesson.location l = Item.location item.

#[global] Instance same_key_dec item l : Decision (same_key item l).
Proof. unfold same_key. apply _. Defined.

Definition removeOne (index : Z) (item : Item.t) (s : Store) : Store :=
  if (index <? 0) || (index >=? Z.of_nat (length (cart s))) then s
  else
    let cart' := delete (Z.to_nat index) (cart s) in
    match list_find (same_key item) (lessons s) with
    | Some (i, lesson) =>
        mkStore
          (<[i := Lesson.set_spaces (JS.plus (Lesson.spaces lesson) 1) lesson]> (lessons s))
          cart'
    | None => mkStore (lessons s) cart'
    end.

(** The rounded sum of a list of doubles, from the left, starting at 0. *)
Definition sum_from_left (l : list float) : float := fold_left PrimFloat.add l 0%float.

Definition counted_price (item : Item.t) : float := price_or_zero (Item.price item).

(** A seat at the price [p]. *)
Definition seat (p : float) : Item.t := Item.mk (Some "Math") (Some "Hall A") (Some p).

(** A cart of two seats, at 9.99 and at 19.99 (the doubles next to these
    decimals), and a catalog of one lesson at 9.99. *)
Definition p_9_99 : float := 0x1.3fae147ae147bp+3%float.

Definition p_19_99 : float := 0x1.3fd70a3d70a3dp+4%float.

Definition two_seats : Store := mkStore [] [seat p_9_99; seat p_19_99].

Definition course : Lesson.t :=
  Lesson.mk (Some "Math") (Some "Hall A") (Some p_9_99) (Some (Num 3)) None.

Definition one_course : Store := mkStore [course] [seat p_19_99].

End Double.

(** ** The search as the specification words it

    [filteredView(catalog, query)]: a case-insensitive substring match of
    the query against the textual rendering of subject, location, price
    and spaces, OR across the four fields, the empty query matching
    everything.  The textual rendering of a number is its decimal
    numeral; an absent field renders as the empty text. *)
Module Spec.

Definition rendering_of_text (v : option string) : string :=
  match v with
  | Some s => s
  | None => ""
  end.

Definition rendering_of_number (v : option number) : string :=
  match v with
  | Some (Num z) => JS.string_of_Z z
  | Some NaN => "NaN"
  | None => ""
  end.

Definition contains_ci (field t : string) : bool :=
  JS.includes (JS.toLowerCase field) (JS.toLowerCase t).

Definition matches (t : string) (l : Lesson.t) : bool :=
  contains_ci (rendering_of_text (Lesson.subject l)) t
  || contains_ci (rendering_of_text (Lesson.location l)) t
  || contains_ci (rendering_of_number (Lesson.price l)) t
  || contains_ci (rendering_of_number (Lesson.spaces l)) t.

Definition filteredView (catalog : list Lesson.t) (t : string) : list Lesson.t :=
  List.filter (matches t) catalog.

End Spec.

(** ** The sort keys as the specification words them

    [sortedView] compares lower-cased strings for the text attributes
    (subject, location) and numeric values for the numeric attributes
    (price, spaces); an absent field counts as the empty text or as 0. *)
Module SortedView.

Inductive Attribute := Subject | Location | Price | Spaces.

Definition name_of (a : Attribute) : string :=
  match a with
  | Subject => "subject"
  | Location => "location"
  | Price => "price"
  | Spaces => "spaces"
  end.

Definition text (v : option string) : string :=
  match v with
  | Some t => JS.toLowerCase t
  | None => ""
  end.

Definition amount (v : option number) : Z :=
  match v with
  | Some (Num z) => z
  | Some NaN => 0
  | None => 0
  end.

(** [x] does not come behind [y] by the key of the attribute. *)
Definition le (a : Attribute) (x y : Lesson.t) : Prop :=
  match a with
  | Subject => String.compare (text (Lesson.subject x)) (text (Lesson.subject y)) ≠ Gt
  | Location => String.compare (text (Lesson.location x)) (text (Lesson.location y)) ≠ Gt
  | Price => amount (Lesson.price x) ≤ amount (Lesson.price y)
  | Spaces => amount (Lesson.spaces x) ≤ amount (Lesson.spaces y)
  end.

(** [y] has the key of [x]. *)
Definition tie (a : Attribute) (x y : Lesson.t) : bool :=
  match a with
  | Subject => bool_decide (text (Lesson.subject y) = text (Lesson.subject x))
  | Location => bool_decide (text (Lesson.location y) = text (Lesson.location x))
  | Price => bool_decide (amount (Lesson.price y) = amount (Lesson.price x))
  | Spaces => bool_decide (amount (Lesson.spaces y) = amount (Lesson.spaces x))
  end.

End SortedView.

(** * Vocabulary of the properties, sample states and backends *)

(** What the loop keeps, as a test on one lesson. *)
Definition kept (term : string) (lesson : Lesson.t) : bool :=
  bool_decide (term = "") || lesson_matches term lesson.

(** A numeric field the code renders as the specification does: a number
    other than zero, or no field at all. *)
Definition renders_alike (v : option number) : Prop :=
  match v with
  | Some (Num z) => z ≠ 0
  | Some NaN => False
  | None => True
  end.

(** A sold-out lesson: the catalog entry after its last seat went into the
    cart. *)
Definition sold_out : Lesson.t :=
  Lesson.mk (Some "Math") (Some "Hall A") (Some (Num 25)) (Some (Num 0)) None.

(** The order of the sort values: texts by code units, numbers by size. *)
Definition value_le (a b : SortValue) : Prop :=
  match a, b with
  | Text x, Text y => String.compare x y ≠ Gt
  | Numeric x, Numeric y => x ≤ y
  | _, _ => False
  end.

(** [a] is not behind [b] by the chosen key. *)
Definition key_le (s : App) (a b : Lesson.t) : Prop :=
  value_le (getSortValue s a) (getSortValue s b).

#[global] Instance SortValue_eq_dec : EqDecision SortValue.
Proof. solve_decision. Defined.

(** The lessons whose sort value is [k]: the ties of one key. *)
Definition has_value (s : App) (k : SortValue) (l : Lesson.t) : bool :=
  bool_decide (getSortValue s l = k).

Inductive same_kind : SortValue → SortValue → Prop :=
| both_text x y : same_kind (Text x) (Text y)
| both_numeric x y : same_kind (Numeric x) (Numeric y).

(** A lesson of price [p]. *)
Definition priced (p : Z) : Lesson.t :=
  Lesson.mk (Some "Math") (Some "Hall A") (Some (Num p)) (Some (Num 5)) None.

Fixpoint sum_Z (l : list Z) : Z :=
  match l with
  | [] => 0
  | x :: l' => x + sum_Z l'
  end.

(** The price a cart entry counts for: [0] when the price is missing. *)
Definition counted_price (item : Item.t) : Z := JS.number_or_zero (Item.price item).

(** [i] is the position of the first lesson with the key of [item]. *)
Definition first_match (item : Item.t) (ls : list Lesson.t) (i : nat) (l : Lesson.t) : Prop :=
  ls !! i = Some l ∧ same_key item l
  ∧ ∀ j l', ls !! j = Some l' → (j < i)%nat → ¬ same_key item l'.

Definition no_match (item : Item.t) (ls : list Lesson.t) : Prop :=
  ∀ l, l ∈ ls → ¬ same_key item l.

(** The catalog of the scenario: one lesson, price 20, two seats. *)
Definition math : Lesson.t :=
  Lesson.mk (Some "Math") (Some "Hall A") (Some (Num 20)) (Some (Num 2)) None.

Definition one_lesson : App := set_lessons [math] initial.

(** A cart of one seat of [math], taken from the catalog. *)
Definition one_seat : App := addToCart (Some 0%nat) one_lesson.

(** What [lesson.spaces += 1] stores. *)
Definition seat_back (l : Lesson.t) : Lesson.t :=
  Lesson.set_spaces (JS.plus (Lesson.spaces l) 1) l.

(** [math] with one of its two seats taken, as it stands in [one_seat]. *)
Definition math_taken : Lesson.t :=
  Lesson.mk (Some "Math") (Some "Hall A") (Some (Num 20)) (Some (Num 1)) None.

Definition art_seat : Item.t := Item.mk (Some "Art") (Some "Hall B") (Some (Num 35)).

(** A cart entry whose lesson is not in the catalog. *)
Definition orphan_seat : App := set_cart [art_seat] one_lesson.

(** A catalog of two lessons and a cart holding one seat of the first. *)
Definition art : Lesson.t :=
  Lesson.mk (Some "Art") (Some "Hall B") (Some (Num 35)) (Some (Num 4)) None.

Definition two_lessons : App :=
  set_cart [seat_of math] (set_lessons [math_taken; art] initial).

(** The key of [l] occurs once in the catalog, at position [i]. *)
Definition unambiguous (ls : list Lesson.t) (i : nat) (l : Lesson.t) : Prop :=
  ∀ j l', ls !! j = Some l' →
          Lesson.subject l' = Lesson.subject l →
          Lesson.location l' = Lesson.location l → j = i.

Definition chars (s : string) : list ascii := list_ascii_of_string s.

Definition between (lo hi c : ascii) : Prop :=
  (nat_of_ascii lo ≤ nat_of_ascii c ≤ nat_of_ascii hi)%nat.

Definition is_letter (c : ascii) : Prop := between "A" "Z" c ∨ between "a" "z" c.

Definition is_letter_or_space (c : ascii) : Prop := is_letter c ∨ c = " "%char.

Definition is_digit (c : ascii) : Prop := between "0" "9" c.

(** [s] matches [^[class]+$], the class given by the property [P]. *)
Definition matches_plus (P : ascii → Prop) (s : string) : Prop :=
  s ≠ "" ∧ ∀ c, c ∈ chars s → P c.

(** The code units of the class bounds. *)
Ltac code_units :=
  change (nat_of_ascii "0") with 48%nat in *;
  change (nat_of_ascii "9") with 57%nat in *;
  change (nat_of_ascii "A") with 65%nat in *;
  change (nat_of_ascii "Z") with 90%nat in *;
  change (nat_of_ascii "a") with 97%nat in *;
  change (nat_of_ascii "z") with 122%nat in *;
  change (nat_of_ascii " ") with 32%nat in *.

(** The customer of the specification's example, with one seat in the
    cart. *)
Definition jane : App := set_customer (mkCustomer "Jane Doe" "5551234") one_seat.

Definition lessons_request (s : App) : Request :=
  mkRequest "GET" (apiBase s ++ "/lessons") NoBody.

(** The ways [GET /lessons] fails, with the error that reaches the
    [catch]: no connection, a status outside 2xx, a body that is not JSON. *)
Inductive load_fails : Reply → string → Prop :=
| transport_error reason : load_fails (Rejected reason) reason
| bad_status res : ok res = false → load_fails (Resolved res) "Failed to fetch lessons"
| bad_body res : ok res = true → json res = None → load_fails (Resolved res) "SyntaxError".

(** The world after one more request, and after a log entry followed by
    a notification. *)
Definition requested (req : Request) (w : World) : World :=
  mkWorld (sent w ++ [req]) (alerts w) (console w).

Definition notified (msg : string) (entry : string * string) (w : World) : World :=
  mkWorld (sent w) (alerts w ++ [msg]) (console w ++ [entry]).

Definition offline : Server := λ _ _, Rejected "Failed to fetch".

Definition unavailable : Server := λ _ _, Resolved (mkResponse false None).

Definition order_request (s : App) : Request :=
  mkRequest "POST" (apiBase s ++ "/order")
    (OrderBody (Order.mk (name (customer s)) (phone (customer s)) (cart s) (cartTotal s))).

Definition spaces_request (s : App) (item : Item.t) (lesson : Lesson.t) : Request :=
  mkRequest "PUT" (apiBase s ++ "/lessons")
    (SpacesBody (Item.subject item) (Item.location item) (Lesson.spaces lesson)).

(** The ways [POST /order] fails, with the error that reaches the [catch]. *)
Inductive order_fails : Reply → string → Prop :=
| order_rejected reason : order_fails (Rejected reason) reason
| order_refused res : ok res = false → order_fails (Resolved res) "Order failed".

Definition order_problem (err : string) (w : World) : World :=
  notified "There was a problem submitting your order." ("Error submitting order:", err) w.

(** A lesson whose [spaces] property is absent. *)
Definition unlimited : Lesson.t :=
  Lesson.mk (Some "Chess") (Some "Room 1") (Some (Num 10)) None None.

(** A backend that accepts the order and answers every update with a
    status outside 2xx. *)
Definition refusing_updates : Server := λ _ req,
  if decide (method req = "PUT") then Resolved (mkResponse false None)
  else Resolved (mkResponse true (Some [math_taken])).

(** ** Vocabulary of the further properties *)

(** The key that ties a cart entry to a lesson. *)
Definition Key : Type := option string * option string.

Definition lesson_key (l : Lesson.t) : Key := (Lesson.subject l, Lesson.location l).

Definition item_key (item : Item.t) : Key := (Item.subject item, Item.location item).

(** The seats the catalog offers under the key [k], and the seats of that
    key held in the cart. *)
Definition offered (k : Key) (l : Lesson.t) : Z :=
  if decide (lesson_key l = k) then JS.number_or_zero (Lesson.spaces l) else 0.

Definition available (k : Key) (ls : list Lesson.t) : Z := sum_Z (map (offered k) ls).

Definition holds (k : Key) (item : Item.t) : Z := if decide (item_key item = k) then 1 else 0.

Definition held (k : Key) (items : list Item.t) : Z := sum_Z (map (holds k) items).

Definition seats (k : Key) (s : App) : Z := available k (lessons s) + held k (cart s).

(** Every lesson has a number of seats, and none is negative. *)
Definition stocked (l : Lesson.t) : Prop :=
  ∃ z, Lesson.spaces l = Some (Num z) ∧ 0 ≤ z.

(** The lesson [l] with [z] as its [spaces]. *)
Definition with_spaces (z : Z) (l : Lesson.t) : Lesson.t :=
  Lesson.set_spaces (Some (Num z)) l.

(** The sort attributes [getSortValue] knows. *)
Definition known_attribute (a : string) : Prop :=
  a = "subject" ∨ a = "location" ∨ a = "price" ∨ a = "spaces".

(** The update request of one cart entry, if a lesson has its key. *)
Definition update_of (s : App) (item : Item.t) : option Request :=
  (λ found, spaces_request s item found.2) <$> find_lesson item (lessons s).

(** The component after the three assignments that close a checkout. *)
Definition submitted (s : App) : App :=
  set_customer (mkCustomer "" "") (set_cart [] (set_orderMessage "Order submitted!" s)).

Definition sending (reqs : list Request) (w : World) : World :=
  mkWorld (sent w ++ reqs) (alerts w) (console w).

(** A backend that answers every request (no call is rejected). *)
Definition answers (server : Server) : Prop :=
  ∀ history req, ∃ res, server history req = Resolved res.

(** A backend whose answers all carry a 2xx status and an empty catalog. *)
Definition obliging : Server := λ _ _, Resolved (mkResponse true (Some [])).

(** A backend that accepts the order and has no connection afterwards. *)
Definition dropping : Server := λ history _,
  match history with
  | [] => Resolved (mkResponse true None)
  | _ => Rejected "Failed to fetch"
  end.

(** The origin of the deployed backend, for every base. *)
Definition deployed_origin : string → option string :=
  λ _, Some "https://educate-app-backend.onrender.com".

(** A second lesson with the key of [math]. *)
Definition math_evening : Lesson.t :=
  Lesson.mk (Some "Math") (Some "Hall A") (Some (Num 30)) (Some (Num 8)) None.

Definition twin_lessons : App := set_lessons [math; math_evening] initial.

(** A name made of spaces only. *)
Definition blank (s : string) : Prop := s ≠ "" ∧ ∀ c, c ∈ chars s → c = " "%char.

(** The lesson with its subject and location in lower case. *)
Definition lower_text (l : Lesson.t) : Lesson.t :=
  Lesson.mk (JS.toLowerCase <$> Lesson.subject l) (JS.toLowerCase <$> Lesson.location l)
    (Lesson.price l) (Lesson.spaces l) (Lesson.image l).

(** Three lessons with two prices: the first and the last tie. *)
Definition by_price : App :=
  set_sortAttribute "price"
    (set_lessons [priced 30; Lesson.set_spaces (Some (Num 1)) (priced 10); priced 10] initial).

(** * Properties *)

(** ** Strings *)

Lemma startsWith_empty s : JS.startsWith s "" = true.
Proof. by destruct s. Qed.

Lemma includes_empty s : JS.includes s "" = true.
Proof. destruct s; simpl; by rewrite ?startsWith_empty. Qed.

Lemma toLowerCase_empty_iff s : JS.toLowerCase s = "" ↔ s = "".
Proof. destruct s; simpl; split; congruence. Qed.

(** ** Search *)

Lemma search_loop term ls acc :
  fold_left (search_step term) ls acc = (acc ++ List.filter (kept term) ls)%list.
Proof.
  revert acc. induction ls as [|l ls IH]; intros acc; simpl.
  - by rewrite app_nil_r.
  - rewrite IH. unfold search_step, kept.
    case_decide as Ht.
    + rewrite bool_decide_eq_true_2 by done. simpl. by rewrite <- app_assoc.
    + rewrite bool_decide_eq_false_2 by done. simpl.
      destruct (lesson_matches term l); simpl; [by rewrite <- app_assoc | done].
Qed.

(** The search keeps, in catalog order, the lessons that pass the loop's
    test. *)
Lemma searchedLessons_filter s :
  searchedLessons s = List.filter (kept (JS.toLowerCase (searchQuery s))) (lessons s).
Proof. unfold searchedLessons. by rewrite search_loop. Qed.

Lemma filter_all {A} (f : A → bool) (l : list A) :
  (∀ x, x ∈ l → f x = true) → List.filter f l = l.
Proof.
  induction l as [|x l IH]; intros H; simpl; [done|].
  rewrite H by apply list_elem_of_here.
  f_equal. apply IH. intros y Hy. apply H. by apply list_elem_of_further.
Qed.

Lemma filter_ext_elem {A} (f g : A → bool) (l : list A) :
  (∀ x, x ∈ l → f x = g x) → List.filter f l = List.filter g l.
Proof.
  induction l as [|x l IH]; intros H; simpl; [done|].
  rewrite H by apply list_elem_of_here.
  rewrite IH; [done|]. intros y Hy. apply H. by apply list_elem_of_further.
Qed.

(** With an empty query the search returns the catalog itself. *)
Lemma searchedLessons_empty_query s :
  searchQuery s = "" → searchedLessons s = lessons s.
Proof.
  intros Hq. rewrite searchedLessons_filter, Hq. simpl.
  apply filter_all. done.
Qed.

Lemma number_or_empty_rendering v :
  renders_alike v → JS.number_or_empty v = Spec.rendering_of_number v.
Proof.
  destruct v as [[|z]|]; simpl; try done.
  intros Hz. by destruct (Z.eqb_spec z 0).
Qed.

(** On a catalog without zero (or NaN) prices and spaces the search is the
    specification's [filteredView]. *)
Lemma searchedLessons_filteredView s :
  (∀ l, l ∈ lessons s →
        renders_alike (Lesson.price l) ∧ renders_alike (Lesson.spaces l)) →
  searchedLessons s = Spec.filteredView (lessons s) (searchQuery s).
Proof.
  intros Hls. rewrite searchedLessons_filter. unfold Spec.filteredView.
  apply filter_ext_elem. intros l Hl.
  destruct (Hls l Hl) as [Hp Hs].
  unfold kept, Spec.matches, Spec.contains_ci, lesson_matches.
  rewrite (number_or_empty_rendering _ Hp), (number_or_empty_rendering _ Hs).
  change (Spec.rendering_of_text ?v) with (JS.text_or_empty v).
  case_bool_decide as Ht; [|done].
  rewrite Ht. simpl. by rewrite includes_empty.
Qed.

(** C2 (the code departs from it).  The claim: the search keeps exactly the
    lessons one of whose four textual renderings contains the term.  On the
    catalog of one lesson with [spaces = 0] and the term ["0"], the
    rendering of [spaces] is ["0"] and contains the term, so the
    specification's [filteredView] keeps the lesson; [searchedLessons]
    renders [spaces] through [lesson.spaces || ""], where [0] is falsy,
    and returns the empty list. *)
Theorem searchedLessons_misses_zero :
  let s := set_searchQuery "0" (set_lessons [sold_out] initial) in
  Spec.filteredView (lessons s) (searchQuery s) = [sold_out]
  ∧ searchedLessons s = [].
Proof. split; reflexivity. Qed.

(** ** Sort *)

Lemma string_compare_refl x : String.compare x x = Eq.
Proof.
  pose proof (String.compare_antisym x x) as H.
  destruct (String.compare x x); simpl in H; congruence.
Qed.

Lemma string_le_trans x y z :
  String.compare x y ≠ Gt → String.compare y z ≠ Gt → String.compare x z ≠ Gt.
Proof.
  revert y z. induction x as [|a x IH]; intros [|b y] [|c z]; simpl; try done.
  unfold Ascii.compare.
  destruct (N.compare_spec (N_of_ascii a) (N_of_ascii b)),
    (N.compare_spec (N_of_ascii b) (N_of_ascii c)),
    (N.compare_spec (N_of_ascii a) (N_of_ascii c));
    try done; try lia.
  apply IH.
Qed.

Lemma value_le_trans a b c : value_le a b → value_le b c → value_le a c.
Proof.
  destruct a, b, c; simpl; try done.
  - apply string_le_trans.
  - lia.
Qed.

(** The two values of one comparison are two texts or two numbers. *)
Lemma getSortValue_same_kind s a b : same_kind (getSortValue s a) (getSortValue s b).
Proof. unfold getSortValue. repeat case_decide; constructor. Qed.

Lemma value_not_gt_le a b : same_kind a b → value_gt a b = false → value_le a b.
Proof.
  intros [x y|x y]; simpl.
  - unfold JS.string_gt. by destruct (String.compare x y).
  - lia.
Qed.

Lemma value_gt_le a b : value_gt a b = true → value_le b a.
Proof.
  destruct a as [x|x], b as [y|y]; simpl; try done.
  - unfold JS.string_gt. rewrite (String.compare_antisym x y).
    by destruct (String.compare y x).
  - lia.
Qed.

Lemma compareLessons_pos s a b :
  0 < compareLessons s a b ↔ value_gt (getSortValue s a) (getSortValue s b) = true.
Proof.
  unfold compareLessons.
  destruct (value_gt _ _); [done|].
  destruct (value_lt _ _); split; (lia || done).
Qed.

Lemma compareLessons_le s a b : compareLessons s a b ≤ 0 → key_le s a b.
Proof.
  intros H. apply value_not_gt_le; [apply getSortValue_same_kind|].
  destruct (value_gt _ _) eqn:E; [|done].
  apply compareLessons_pos in E. lia.
Qed.

Lemma compareLessons_ge s a b : 0 < compareLessons s a b → key_le s b a.
Proof. intros H. apply value_gt_le. by apply compareLessons_pos. Qed.

Lemma compareLessons_tie s a b :
  getSortValue s a = getSortValue s b → compareLessons s a b = 0.
Proof.
  unfold compareLessons. intros ->.
  destruct (getSortValue s b) as [x|x]; simpl.
  - unfold JS.string_gt, JS.string_lt. by rewrite string_compare_refl.
  - rewrite Z.gtb_ltb, Z.ltb_irrefl. done.
Qed.

(** Facts on [array_sort] for any comparator. *)
Section ArraySortFacts.
Context {A : Type} (cmp : A → A → Z).

Lemma sort_insert_perm x l : sort_insert cmp x l ≡ₚ x :: l.
Proof.
  induction l as [|y l IH]; simpl; [done|].
  destruct (0 <? cmp x y); [|done].
  rewrite IH. apply Permutation_swap.
Qed.

Lemma array_sort_perm l : array_sort cmp l ≡ₚ l.
Proof.
  induction l as [|x l IH]; simpl; [done|].
  rewrite sort_insert_perm. by rewrite IH.
Qed.

(** Stability: a set of elements on which the comparator is never
    positive keeps its order. *)
Lemma sort_insert_stable (P : A → bool) x l :
  (∀ y, P x = true → P y = true → cmp x y ≤ 0) →
  List.filter P (sort_insert cmp x l) = List.filter P (x :: l).
Proof.
  intros Htie. induction l as [|y l IH]; simpl; [done|].
  destruct (Z.ltb_spec 0 (cmp x y)) as [Hpos|Hle]; simpl; [|done].
  simpl in IH. rewrite IH.
  destruct (P x) eqn:Hx, (P y) eqn:Hy; try done.
  specialize (Htie y eq_refl Hy). lia.
Qed.

Lemma array_sort_stable (P : A → bool) l :
  (∀ x y, P x = true → P y = true → cmp x y ≤ 0) →
  List.filter P (array_sort cmp l) = List.filter P l.
Proof.
  intros Htie. induction l as [|x l IH]; simpl; [done|].
  rewrite sort_insert_stable by (intros y; apply Htie).
  simpl. by rewrite IH.
Qed.

(** Order: the result is sorted by any transitive order that the
    comparator decides. *)
Section Order.
Variable le : A → A → Prop.
Hypothesis le_trans : ∀ x y z, le x y → le y z → le x z.
Hypothesis cmp_le : ∀ x y, cmp x y ≤ 0 → le x y.
Hypothesis cmp_ge : ∀ x y, 0 < cmp x y → le y x.

Lemma sort_insert_sorted x l :
  StronglySorted le l → StronglySorted le (sort_insert cmp x l).
Proof.
  induction 1 as [|y l Hl IH Hy]; simpl.
  - repeat constructor.
  - destruct (Z.ltb_spec 0 (cmp x y)) as [Hpos|Hle].
    + constructor; [done|].
      rewrite sort_insert_perm. constructor; [by apply cmp_ge | done].
    + constructor; [by constructor|].
      constructor; [by apply cmp_le|].
      eapply Forall_impl; [exact Hy|]. intros z Hz.
      eapply le_trans; [by apply cmp_le | done].
Qed.

Lemma array_sort_sorted l : StronglySorted le (array_sort cmp l).
Proof.
  induction l as [|x l IH]; simpl; [constructor|].
  by apply sort_insert_sorted.
Qed.
End Order.
End ArraySortFacts.

Lemma searchedLessons_sortDir d s : searchedLessons (set_sortDir d s) = searchedLessons s.
Proof. done. Qed.

Lemma compareLessons_sortDir d s : compareLessons (set_sortDir d s) = compareLessons s.
Proof. done. Qed.

(** Whatever the sort attribute and the direction, in terms of the value
    [getSortValue] gives: [sortedLessons] is a permutation of the searched
    list; the ascending result is non-decreasing by that value and keeps
    the lessons of equal value in their input order; the descending
    result is the reverse of the ascending list; every direction other
    than ["desc"] gives the ascending list. *)
Lemma sortedLessons_by_value (s : App) :
  let input := searchedLessons s in
  let asc := sortedLessons (set_sortDir "asc" s) in
  let desc := sortedLessons (set_sortDir "desc" s) in
  sortedLessons s ≡ₚ input
  ∧ StronglySorted (key_le s) asc
  ∧ (∀ k, List.filter (has_value s k) asc = List.filter (has_value s k) input)
  ∧ desc = rev asc
  ∧ (∀ k, List.filter (has_value s k) desc = rev (List.filter (has_value s k) input))
  ∧ (∀ d, sortedLessons (set_sortDir d s) = if decide (d = "desc") then desc else asc).
Proof.
  assert (Hasc : sortedLessons (set_sortDir "asc" s)
                 = array_sort (compareLessons s) (searchedLessons s)) by done.
  assert (Hdesc : sortedLessons (set_sortDir "desc" s)
                  = rev (array_sort (compareLessons s) (searchedLessons s))) by done.
  assert (Hstable : ∀ k, List.filter (has_value s k)
                           (array_sort (compareLessons s) (searchedLessons s))
                         = List.filter (has_value s k) (searchedLessons s)).
  { intros k. apply array_sort_stable. intros x y Hx Hy.
    unfold has_value in *. apply bool_decide_eq_true in Hx, Hy.
    rewrite compareLessons_tie; [done | congruence]. }
  cbv zeta. rewrite Hasc, Hdesc.
  split; [|split; [|split; [|split; [|split]]]].
  - unfold sortedLessons. case_decide.
    + by rewrite <- Permutation_rev, array_sort_perm.
    + apply array_sort_perm.
  - apply array_sort_sorted.
    + intros x y z. apply value_le_trans.
    + apply compareLessons_le.
    + apply compareLessons_ge.
  - exact Hstable.
  - done.
  - intros k. by rewrite List.filter_rev, Hstable.
  - intros d. unfold sortedLessons at 1.
    rewrite searchedLessons_sortDir, compareLessons_sortDir.
    destruct s; simpl. by repeat case_decide.
Qed.

(** What [getSortValue] gives for each of the four attributes. *)
Lemma getSortValue_attribute s a l :
  sortAttribute s = SortedView.name_of a →
  getSortValue s l =
    match a with
    | SortedView.Subject => Text (SortedView.text (Lesson.subject l))
    | SortedView.Location => Text (SortedView.text (Lesson.location l))
    | SortedView.Price => Numeric (SortedView.amount (Lesson.price l))
    | SortedView.Spaces => Numeric (SortedView.amount (Lesson.spaces l))
    end.
Proof.
  intros Ha. unfold getSortValue. rewrite Ha.
  destruct a; simpl; repeat (case_decide; try done).
  - by destruct (Lesson.subject l).
  - by destruct (Lesson.location l).
  - by destruct (Lesson.price l) as [[|z]|].
  - by destruct (Lesson.spaces l) as [[|z]|].
Qed.

Lemma key_le_attribute s a x y :
  sortAttribute s = SortedView.name_of a → key_le s x y → SortedView.le a x y.
Proof.
  intros Ha. unfold key_le.
  rewrite !(getSortValue_attribute s a) by done. by destruct a.
Qed.

Lemma has_value_attribute s a x y :
  sortAttribute s = SortedView.name_of a →
  has_value s (getSortValue s x) y = SortedView.tie a x y.
Proof.
  intros Ha. unfold has_value.
  rewrite !(getSortValue_attribute s a) by done.
  destruct a; simpl; apply bool_decide_ext; split; congruence.
Qed.

Lemma StronglySorted_weaken {A} (R R' : A → A → Prop) (l : list A) :
  (∀ x y, R x y → R' x y) → StronglySorted R l → StronglySorted R' l.
Proof.
  intros HR. induction 1 as [|x l Hl IH Hx]; constructor; [done|].
  eapply Forall_impl; [exact Hx | auto].
Qed.

(** C3.  For each of the four sort attributes, [sortedLessons] is a
    permutation of the searched list.  The ascending result is
    non-decreasing by the key of the attribute (the lower-cased subject or
    location, the price or the spaces as a number, an absent field
    counting as the empty text or 0) and keeps the lessons of equal key in
    their input order.  The descending result is the reverse of the
    ascending list, so the lessons of equal key come in reversed input
    order.  Every direction other than ["desc"] gives the ascending
    list. *)
Theorem sortedLessons_spec (s : App) (a : SortedView.Attribute) :
  sortAttribute s = SortedView.name_of a →
  let input := searchedLessons s in
  let asc := sortedLessons (set_sortDir "asc" s) in
  let desc := sortedLessons (set_sortDir "desc" s) in
  sortedLessons s ≡ₚ input
  ∧ StronglySorted (SortedView.le a) asc
  ∧ (∀ x, List.filter (SortedView.tie a x) asc = List.filter (SortedView.tie a x) input)
  ∧ desc = rev asc
  ∧ (∀ x, List.filter (SortedView.tie a x) desc
          = rev (List.filter (SortedView.tie a x) input))
  ∧ (∀ d, sortedLessons (set_sortDir d s) = if decide (d = "desc") then desc else asc).
Proof.
  intros Ha. cbv zeta.
  destruct (sortedLessons_by_value s) as (Hperm & Hsorted & Hties & Hdesc & Hrev & Hdir).
  split; [done|]. split; [|split; [|split; [done|split; [|done]]]].
  - eapply StronglySorted_weaken; [|exact Hsorted].
    intros x y. by apply key_le_attribute.
  - intros x.
    rewrite <- !(filter_ext_elem (has_value s (getSortValue s x)) (SortedView.tie a x))
      by (intros y _; by apply has_value_attribute).
    apply Hties.
  - intros x.
    rewrite <- !(filter_ext_elem (has_value s (getSortValue s x)) (SortedView.tie a x))
      by (intros y _; by apply has_value_attribute).
    apply Hrev.
Qed.

Lemma sortedLessons_spec_witness :
  sortedLessons (set_sortDir "asc" by_price)
  = [Lesson.set_spaces (Some (Num 1)) (priced 10); priced 10; priced 30]
  ∧ StronglySorted (SortedView.le SortedView.Price) (sortedLessons (set_sortDir "asc" by_price))
  ∧ sortedLessons (set_sortDir "desc" by_price)
    = rev (sortedLessons (set_sortDir "asc" by_price)).
Proof.
  pose proof (sortedLessons_spec by_price SortedView.Price eq_refl) as H.
  split; [reflexivity|]. split.
  - exact (proj1 (proj2 H)).
  - exact (proj1 (proj2 (proj2 (proj2 H)))).
Defined.

(** The scenario of the specification: empty search, sort by price,
    descending, on prices 10, 30, 20. *)
Example displayedLessons_by_price_desc :
  displayedLessons
    (set_sortDir "desc" (set_sortAttribute "price"
       (set_lessons [priced 10; priced 30; priced 20] initial)))
  = [priced 30; priced 20; priced 10].
Proof. reflexivity. Qed.

(** ** Cart *)

Lemma sum_Z_app l1 l2 : sum_Z (l1 ++ l2) = sum_Z l1 + sum_Z l2.
Proof. induction l1 as [|x l1 IH]; simpl; lia. Qed.

Lemma reduce_sum (items : list Item.t) acc :
  fold_left (λ sum item, sum + JS.number_or_zero (Item.price item)) items acc
  = acc + sum_Z (map counted_price items).
Proof.
  revert acc. induction items as [|x items IH]; intros acc; simpl; [lia|].
  rewrite IH. unfold counted_price. lia.
Qed.

Lemma cartTotal_sum s : cartTotal s = sum_Z (map counted_price (cart s)).
Proof. unfold cartTotal. rewrite reduce_sum. lia. Qed.

Lemma find_lesson_first item ls i l :
  first_match item ls i l → find_lesson item ls = Some (i, l).
Proof. intros H. by apply list_find_Some. Qed.

Lemma find_lesson_none item ls : no_match item ls → find_lesson item ls = None.
Proof. intros H. apply list_find_None, Forall_forall. exact H. Qed.

Lemma removeOne_out_of_bounds idx item s :
  idx < 0 ∨ Z.of_nat (length (cart s)) ≤ idx → removeOne idx item s = s.
Proof.
  intros H. unfold removeOne.
  destruct (Z.ltb_spec idx 0); simpl; [done|].
  destruct (Z.geb_spec idx (Z.of_nat (length (cart s)))); [done | lia].
Qed.

(** [removeOne] within bounds, for any [item]. *)
Lemma removeOne_in_bounds idx item s :
  0 ≤ idx < Z.of_nat (length (cart s)) →
  removeOne idx item s =
    let s1 := set_cart (delete (Z.to_nat idx) (cart s)) s in
    match find_lesson item (lessons s) with
    | Some (i, l) =>
        set_lessons (<[i := Lesson.set_spaces (JS.plus (Lesson.spaces l) 1) l]> (lessons s)) s1
    | None => s1
    end.
Proof.
  intros H. unfold removeOne.
  destruct (Z.ltb_spec idx 0); [lia|]. simpl.
  destruct (Z.geb_spec idx (Z.of_nat (length (cart s)))); [lia | done].
Qed.

Lemma addToCart_ok s i l :
  lessons s !! i = Some l → JS.le_zero (Lesson.spaces l) = false →
  addToCart (Some i) s =
    set_cart (cart s ++ [seat_of l])
      (set_lessons (<[i := Lesson.set_spaces (JS.plus (Lesson.spaces l) (-1)) l]> (lessons s)) s).
Proof. intros Hl Hz. unfold addToCart. by rewrite Hl, Hz. Qed.

Lemma addToCart_full s i l :
  lessons s !! i = Some l → JS.le_zero (Lesson.spaces l) = true →
  addToCart (Some i) s = s.
Proof. intros Hl Hz. unfold addToCart. by rewrite Hl, Hz. Qed.

(** C5.  [addToCart] changes nothing for a missing lesson and for a lesson
    whose [spaces] is at most 0.  For a lesson of the catalog with
    [spaces = z > 0] it stores [z - 1] in that lesson, leaves every other
    lesson and field as it is, and appends to the cart the snapshot of the
    lesson's subject, location and price.  On the catalog of one lesson
    with price 20 and 2 seats, two calls leave 0 seats, a cart of length 2
    and a total of 40, and a third call changes nothing. *)
Theorem addToCart_spec (s : App) :
  addToCart None s = s
  ∧ (∀ i l z, lessons s !! i = Some l → Lesson.spaces l = Some (Num z) → z ≤ 0 →
       addToCart (Some i) s = s)
  ∧ (∀ i l z, lessons s !! i = Some l → Lesson.spaces l = Some (Num z) → 0 < z →
       addToCart (Some i) s =
         set_cart
           (cart s ++ [Item.mk (Lesson.subject l) (Lesson.location l) (Lesson.price l)])
           (set_lessons
              (<[i := Lesson.mk (Lesson.subject l) (Lesson.location l) (Lesson.price l)
                        (Some (Num (z - 1))) (Lesson.image l)]> (lessons s)) s))
  ∧ (let s2 := addToCart (Some 0%nat) (addToCart (Some 0%nat) one_lesson) in
     Lesson.spaces <$> lessons s2 = [Some (Num 0)]
     ∧ cartCount s2 = 2
     ∧ cartTotal s2 = 40
     ∧ addToCart (Some 0%nat) s2 = s2).
Proof.
  split; [done|]. split; [|split].
  - intros i l z Hl Hz Hle. apply (addToCart_full _ _ _ Hl).
    rewrite Hz. simpl. lia.
  - intros i l z Hl Hz Hpos. rewrite (addToCart_ok _ _ _ Hl).
    + unfold Lesson.set_spaces, seat_of. rewrite Hz. simpl.
      by replace (z + -1) with (z - 1) by lia.
    + rewrite Hz. simpl. lia.
  - by vm_compute.
Qed.

Lemma addToCart_spec_witness :
  addToCart (Some 0%nat) one_lesson =
    set_cart [Item.mk (Some "Math") (Some "Hall A") (Some (Num 20))]
      (set_lessons [Lesson.mk (Some "Math") (Some "Hall A") (Some (Num 20)) (Some (Num 1)) None]
         one_lesson).
Proof.
  exact (proj1 (proj2 (proj2 (addToCart_spec one_lesson))) 0%nat math 2
           eq_refl eq_refl ltac:(lia)).
Defined.

Lemma sum_Z_delete (l : list Z) i x :
  l !! i = Some x → sum_Z (delete i l) = sum_Z l - x.
Proof.
  revert i. induction l as [|y l IH]; intros [|i] Hi; simpl in *; try done.
  - injection Hi as ->. lia.
  - rewrite (IH i Hi). lia.
Qed.

Lemma map_delete {A B} (f : A → B) (l : list A) i :
  map f (delete i l) = delete i (map f l).
Proof.
  revert i. induction l as [|y l IH]; intros [|i]; simpl; try done.
  by rewrite IH.
Qed.

Lemma removeOne_cart idx item s :
  0 ≤ idx < Z.of_nat (length (cart s)) →
  cart (removeOne idx item s) = delete (Z.to_nat idx) (cart s).
Proof.
  intros H. rewrite removeOne_in_bounds by done. simpl.
  by destruct (find_lesson item (lessons s)) as [[i l]|].
Qed.

(** With integer prices.  [cartTotal] is the sum of the prices of the
    cart entries, a missing price counting for 0.  An [addToCart] that
    takes a seat raises the total by the price of the lesson, and a
    [removeOne] within bounds lowers it by the price held in the entry it
    removes. *)
Theorem cartTotal_spec (s : App) :
  cartTotal s = sum_Z (map counted_price (cart s))
  ∧ (∀ item, Item.price item = None → counted_price item = 0)
  ∧ (∀ item p, Item.price item = Some (Num p) → counted_price item = p)
  ∧ (∀ i l, lessons s !! i = Some l → JS.le_zero (Lesson.spaces l) = false →
       cartTotal (addToCart (Some i) s) = cartTotal s + JS.number_or_zero (Lesson.price l))
  ∧ (∀ idx item removed, 0 ≤ idx → cart s !! Z.to_nat idx = Some removed →
       cartTotal (removeOne idx item s) = cartTotal s - counted_price removed).
Proof.
  split; [apply cartTotal_sum|].
  split; [by intros item; unfold counted_price; intros ->|].
  split; [by intros item p; unfold counted_price; intros ->|].
  split.
  - intros i l Hl Hz. rewrite (addToCart_ok _ _ _ Hl Hz), !cartTotal_sum. simpl.
    rewrite map_app, sum_Z_app. simpl. unfold counted_price at 2. simpl. lia.
  - intros idx item removed Hidx Hrem.
    assert (0 ≤ idx < Z.of_nat (length (cart s))) as Hb.
    { apply lookup_lt_Some in Hrem. lia. }
    rewrite !cartTotal_sum, (removeOne_cart _ _ _ Hb), map_delete.
    apply sum_Z_delete. by rewrite list_lookup_fmap, Hrem.
Qed.

Lemma cartTotal_spec_witness :
  cartTotal (addToCart (Some 0%nat) one_lesson) = cartTotal one_lesson + 20
  ∧ cartTotal (removeOne 0 (seat_of math) one_seat) = cartTotal one_seat - 20.
Proof.
  split.
  - exact (proj1 (proj2 (proj2 (proj2 (cartTotal_spec one_lesson)))) 0%nat math
             eq_refl eq_refl).
  - exact (proj2 (proj2 (proj2 (proj2 (cartTotal_spec one_seat)))) 0 (seat_of math)
             (seat_of math) ltac:(lia) eq_refl).
Defined.

(** *** The total as a sum of doubles *)

Lemma double_reduce (items : list Double.Item.t) (acc : float) :
  fold_left (λ sum item, PrimFloat.add sum (Double.price_or_zero (Double.Item.price item)))
    items acc
  = fold_left PrimFloat.add (map Double.counted_price items) acc.
Proof.
  revert acc. induction items as [|x items IH]; intros acc; simpl; [done|].
  by rewrite IH.
Qed.

Lemma double_total_sum s :
  Double.cartTotal s = Double.sum_from_left (map Double.counted_price (Double.cart s)).
Proof. apply double_reduce. Qed.

Lemma double_addToCart_ok s i l :
  Double.lessons s !! i = Some l → JS.le_zero (Double.Lesson.spaces l) = false →
  Double.cart (Double.addToCart (Some i) s) = (Double.cart s ++ [Double.seat_of l])%list.
Proof. intros Hl Hz. unfold Double.addToCart. by rewrite Hl, Hz. Qed.

Lemma double_removeOne_cart idx item s :
  0 ≤ idx < Z.of_nat (length (Double.cart s)) →
  Double.cart (Double.removeOne idx item s) = delete (Z.to_nat idx) (Double.cart s).
Proof.
  intros H. unfold Double.removeOne.
  destruct (Z.ltb_spec idx 0); [lia|]. simpl.
  destruct (Z.geb_spec idx (Z.of_nat (length (Double.cart s)))); [lia|].
  by destruct (list_find _ _) as [[i l]|].
Qed.

(** C7 (the claim as stated fails).  With the prices 9.99 and 19.99 in
    the cart, removing the second entry leaves the total 9.99, while the
    total before minus the removed price is the double below 9.99: the
    removal does not lower the total by exactly the removed price. *)
Lemma cartTotal_removal_inexact :
  Double.cart Double.two_seats !! 1%nat = Some (Double.seat Double.p_19_99)
  ∧ Double.cartTotal (Double.removeOne 1 (Double.seat Double.p_19_99) Double.two_seats)
    ≠ PrimFloat.sub (Double.cartTotal Double.two_seats) Double.p_19_99.
Proof.
  split; [reflexivity|]. intros H.
  apply (f_equal (λ x, PrimFloat.eqb x Double.p_9_99)) in H.
  vm_compute in H. discriminate H.
Qed.

(** C7, as the code has it.  [cartTotal] is the sum of the prices of the
    cart entries in double arithmetic, added from the left and rounded at
    each step, a missing price counting for 0 and a price that is a
    number other than 0 for itself.  An [addToCart] that takes
    a seat makes the total the rounded sum of the total before and the
    price of the lesson.  A [removeOne] within bounds makes it the
    rounded sum of the entries that remain; removing the entry just
    added gives back the total before. *)
Theorem cartTotal_double (s : Double.Store) :
  Double.cartTotal s = Double.sum_from_left (map Double.counted_price (Double.cart s))
  ∧ (∀ item, Double.Item.price item = None → Double.counted_price item = 0%float)
  ∧ (∀ item p, Double.Item.price item = Some p →
       PrimFloat.is_nan p = false → PrimFloat.is_zero p = false →
       Double.counted_price item = p)
  ∧ (∀ p, PrimFloat.is_nan p = false → PrimFloat.is_zero p = false →
       Double.price_or_zero (Some p) = p)
  ∧ (∀ i l, Double.lessons s !! i = Some l → JS.le_zero (Double.Lesson.spaces l) = false →
       Double.cartTotal (Double.addToCart (Some i) s)
       = PrimFloat.add (Double.cartTotal s) (Double.price_or_zero (Double.Lesson.price l)))
  ∧ (∀ idx item, 0 ≤ idx < Z.of_nat (length (Double.cart s)) →
       Double.cartTotal (Double.removeOne idx item s)
       = Double.sum_from_left
           (map Double.counted_price (delete (Z.to_nat idx) (Double.cart s))))
  ∧ (∀ i l item, Double.lessons s !! i = Some l →
       JS.le_zero (Double.Lesson.spaces l) = false →
       Double.cartTotal
         (Double.removeOne (Z.of_nat (length (Double.cart s))) item
            (Double.addToCart (Some i) s))
       = Double.cartTotal s).
Proof.
  split; [apply double_total_sum|].
  split; [by intros item; unfold Double.counted_price; intros ->|].
  split.
  { intros item p Hp Hn Hz. unfold Double.counted_price. rewrite Hp. simpl.
    by rewrite Hn, Hz. }
  split; [by intros p Hn Hz; simpl; rewrite Hn, Hz|].
  split; [|split].
  - intros i l Hl Hz.
    rewrite !double_total_sum, (double_addToCart_ok _ _ _ Hl Hz).
    unfold Double.sum_from_left. by rewrite map_app, fold_left_app.
  - intros idx item Hb.
    by rewrite double_total_sum, (double_removeOne_cart _ _ _ Hb).
  - intros i l item Hl Hz.
    rewrite !double_total_sum, double_removeOne_cart.
    + rewrite (double_addToCart_ok _ _ _ Hl Hz), Nat2Z.id.
      by rewrite (delete_middle (Double.cart s) [] _), app_nil_r.
    + rewrite (double_addToCart_ok _ _ _ Hl Hz), length_app. simpl. lia.
Qed.

Lemma cartTotal_double_witness :
  Double.cartTotal (Double.addToCart (Some 0%nat) Double.one_course)
  = PrimFloat.add (Double.cartTotal Double.one_course) Double.p_9_99
  ∧ Double.counted_price (Double.seat Double.p_9_99) = Double.p_9_99
  ∧ Double.cartTotal (Double.removeOne 0 (Double.seat Double.p_9_99) Double.two_seats)
    = Double.sum_from_left [Double.p_19_99]
  ∧ Double.cartTotal
      (Double.removeOne 1 (Double.seat Double.p_9_99)
         (Double.addToCart (Some 0%nat) Double.one_course))
    = Double.cartTotal Double.one_course.
Proof.
  pose proof (cartTotal_double Double.one_course) as (_ & _ & Hitem & _ & Hadd & _ & Hback).
  pose proof (cartTotal_double Double.two_seats) as (_ & _ & _ & _ & _ & Hrem & _).
  split; [|split; [|split]].
  - exact (Hadd 0%nat Double.course eq_refl eq_refl).
  - exact (Hitem (Double.seat Double.p_9_99) Double.p_9_99 eq_refl eq_refl eq_refl).
  - exact (Hrem 0 (Double.seat Double.p_9_99) ltac:(simpl; lia)).
  - exact (Hback 0%nat Double.course (Double.seat Double.p_9_99) eq_refl eq_refl).
Defined.

Lemma seat_back_number l z :
  Lesson.spaces l = Some (Num z) → Lesson.spaces (seat_back l) = Some (Num (z + 1)).
Proof. unfold seat_back. simpl. by intros ->. Qed.

Lemma removeOne_first_match idx item s i l :
  0 ≤ idx < Z.of_nat (length (cart s)) → first_match item (lessons s) i l →
  removeOne idx item s =
    set_lessons (<[i := seat_back l]> (lessons s))
      (set_cart (delete (Z.to_nat idx) (cart s)) s).
Proof.
  intros Hb Hm. rewrite removeOne_in_bounds by done. simpl.
  by rewrite (find_lesson_first _ _ _ _ Hm).
Qed.

Lemma removeOne_no_match idx item s :
  0 ≤ idx < Z.of_nat (length (cart s)) → no_match item (lessons s) →
  removeOne idx item s = set_cart (delete (Z.to_nat idx) (cart s)) s.
Proof.
  intros Hb Hm. rewrite removeOne_in_bounds by done. simpl.
  by rewrite (find_lesson_none _ _ Hm).
Qed.

(** C6.  [removeOne] with an index outside the cart changes nothing.  With
    an index within bounds and the cart entry of that index as its item (as
    the cart view calls it), it deletes exactly that entry; the first
    lesson of the catalog with the entry's subject and location gets
    [spaces + 1] and no other lesson changes; when no lesson has that key
    the entry is deleted all the same and the catalog stays as it is. *)
Theorem removeOne_spec (s : App) (idx : Z) (item : Item.t) :
  (idx < 0 ∨ Z.of_nat (length (cart s)) ≤ idx → removeOne idx item s = s)
  ∧ (0 ≤ idx → cart s !! Z.to_nat idx = Some item →
       cart (removeOne idx item s) = delete (Z.to_nat idx) (cart s)
       ∧ (∀ i l, first_match item (lessons s) i l →
            removeOne idx item s =
              set_lessons (<[i := seat_back l]> (lessons s))
                (set_cart (delete (Z.to_nat idx) (cart s)) s)
            ∧ ∀ z, Lesson.spaces l = Some (Num z) →
                   seat_back l =
                     Lesson.mk (Lesson.subject l) (Lesson.location l) (Lesson.price l)
                       (Some (Num (z + 1))) (Lesson.image l))
       ∧ (no_match item (lessons s) →
            removeOne idx item s = set_cart (delete (Z.to_nat idx) (cart s)) s)).
Proof.
  split; [apply removeOne_out_of_bounds|].
  intros Hidx Hitem.
  assert (0 ≤ idx < Z.of_nat (length (cart s))) as Hb.
  { apply lookup_lt_Some in Hitem. lia. }
  split; [by apply removeOne_cart|]. split.
  - intros i l Hm. split; [by apply removeOne_first_match|].
    intros z Hz. unfold seat_back, Lesson.set_spaces. by rewrite Hz.
  - by apply removeOne_no_match.
Qed.

Lemma first_match_math : first_match (seat_of math) (lessons one_seat) 0 math_taken.
Proof.
  split; [reflexivity|]. split; [by split|].
  intros j l' _ Hj. lia.
Defined.

Lemma no_match_art : no_match art_seat (lessons orphan_seat).
Proof.
  intros l Hl [Hs _]. apply list_elem_of_singleton in Hl. subst l. discriminate Hs.
Defined.

Lemma removeOne_spec_witness :
  removeOne 7 (seat_of math) one_seat = one_seat
  ∧ removeOne 0 (seat_of math) one_seat = one_lesson
  ∧ removeOne 0 art_seat orphan_seat = one_lesson.
Proof.
  split; [|split].
  - apply (proj1 (removeOne_spec one_seat 7 (seat_of math))). right. simpl. lia.
  - exact (proj1 (proj1 (proj2 (proj2 (removeOne_spec one_seat 0 (seat_of math))
                                  ltac:(lia) eq_refl))
                   0%nat math_taken first_match_math)).
  - exact (proj2 (proj2 (proj2 (removeOne_spec orphan_seat 0 art_seat)
                           ltac:(lia) eq_refl))
             no_match_art).
Defined.

(** C10.  [removeOne] restores the seat by its [item] argument, not by the
    cart entry at [index]: for an index within bounds and any item, the
    cart loses the entry at the index, and [spaces + 1] goes to the first
    lesson with the subject and location of the item passed (to none when
    no lesson has them).  With a cart holding a seat of Math and the item
    of Art passed, the Math seat leaves the cart and Art gets a seat. *)
Theorem removeOne_by_item (s : App) (idx : Z) (item : Item.t) :
  (0 ≤ idx < Z.of_nat (length (cart s)) →
     cart (removeOne idx item s) = delete (Z.to_nat idx) (cart s)
     ∧ (∀ i l, first_match item (lessons s) i l →
          lessons (removeOne idx item s) = <[i := seat_back l]> (lessons s))
     ∧ (no_match item (lessons s) → lessons (removeOne idx item s) = lessons s))
  ∧ (cart two_lessons = [seat_of math]
     ∧ cart (removeOne 0 art_seat two_lessons) = []
     ∧ Lesson.spaces <$> lessons two_lessons = [Some (Num 1); Some (Num 4)]
     ∧ Lesson.spaces <$> lessons (removeOne 0 art_seat two_lessons)
       = [Some (Num 1); Some (Num 5)]).
Proof.
  split.
  - intros Hb. split; [by apply removeOne_cart|]. split.
    + intros i l Hm. by rewrite (removeOne_first_match _ _ _ _ _ Hb Hm).
    + intros Hm. by rewrite (removeOne_no_match _ _ _ Hb Hm).
  - by vm_compute.
Qed.

Lemma first_match_art : first_match art_seat (lessons two_lessons) 1 art.
Proof.
  split; [reflexivity|]. split; [by split|].
  intros j l' Hl' Hj [Hs _].
  assert (j = 0%nat) as -> by lia.
  injection Hl' as <-. discriminate Hs.
Defined.

Lemma removeOne_by_item_witness :
  cart (removeOne 0 art_seat two_lessons) = []
  ∧ lessons (removeOne 0 art_seat two_lessons) = [math_taken; seat_back art].
Proof.
  pose proof (proj1 (removeOne_by_item two_lessons 0 art_seat)) as H.
  assert (0 ≤ 0 < Z.of_nat (length (cart two_lessons))) as Hb by (simpl; lia).
  split.
  - exact (proj1 (H Hb)).
  - exact (proj1 (proj2 (H Hb)) 1%nat art first_match_art).
Defined.

(** C4.  For a lesson of the catalog with a numeric [spaces] and a key no
    other lesson has, [addToCart] on it followed by [removeOne] on the
    entry just pushed (the last of the cart) gives back the state before:
    the lesson has its former [spaces] and the cart its former length.
    (When the lesson has no seat left, nothing is pushed and both calls
    leave the state alone.) *)
Theorem addToCart_removeOne (s : App) (i : nat) (l : Lesson.t) (z : Z) :
  lessons s !! i = Some l →
  Lesson.spaces l = Some (Num z) →
  unambiguous (lessons s) i l →
  let s1 := addToCart (Some i) s in
  let s2 := removeOne (Z.of_nat (length (cart s))) (seat_of l) s1 in
  (0 < z → cart s1 = (cart s ++ [seat_of l])%list)
  ∧ s2 = s
  ∧ Lesson.spaces <$> lessons s2 !! i = Some (Some (Num z))
  ∧ length (cart s2) = length (cart s).
Proof.
  intros Hl Hz Huniq. cbv zeta.
  assert (removeOne (Z.of_nat (length (cart s))) (seat_of l) (addToCart (Some i) s) = s)
    as Hback.
  { destruct (Z.le_gt_cases z 0) as [Hle|Hpos].
    { rewrite (addToCart_full _ _ _ Hl) by (rewrite Hz; simpl; lia).
      apply removeOne_out_of_bounds. lia. }
    rewrite (addToCart_ok _ _ _ Hl) by (rewrite Hz; simpl; lia).
    set (l1 := Lesson.set_spaces (JS.plus (Lesson.spaces l) (-1)) l).
    rewrite (removeOne_first_match _ _ _ i l1).
    - simpl. rewrite Nat2Z.id.
      rewrite (delete_middle (cart s) [] (seat_of l)), app_nil_r.
      rewrite list_insert_insert_eq.
      replace (seat_back l1) with l.
      + rewrite list_insert_id by done. by destruct s.
      + unfold seat_back, l1. destruct l as [sb lc pr sp im]. simpl in *. subst sp.
        simpl. unfold Lesson.set_spaces. simpl. do 3 f_equal. lia.
    - simpl. rewrite length_app. simpl. lia.
    - simpl. split; [|split].
      + apply list_lookup_insert_eq. by apply lookup_lt_Some in Hl.
      + by split.
      + intros j l' Hl' Hj [Hs Hc].
        rewrite list_lookup_insert_ne in Hl' by lia.
        specialize (Huniq j l' Hl' Hs Hc). lia. }
  split.
  { intros Hpos. by rewrite (addToCart_ok _ _ _ Hl) by (rewrite Hz; simpl; lia). }
  rewrite Hback.
  split; [done|]. split; [by rewrite Hl; simpl; rewrite Hz | done].
Qed.

(** Outside the data model: when a lesson has no [spaces] property,
    [undefined <= 0] is false; [addToCart] takes a seat all the same and
    leaves [NaN], which [removeOne] does not turn back. *)
Example addToCart_without_spaces :
  let s := set_lessons [unlimited] initial in
  let s1 := addToCart (Some 0%nat) s in
  Lesson.spaces <$> lessons s1 = [Some NaN]
  ∧ cart s1 = [seat_of unlimited]
  ∧ Lesson.spaces <$> lessons (removeOne 0 (seat_of unlimited) s1) = [Some NaN].
Proof. by vm_compute. Qed.

Lemma addToCart_removeOne_witness :
  removeOne 0 (seat_of math) (addToCart (Some 0%nat) one_lesson) = one_lesson.
Proof.
  refine (proj1 (proj2 (addToCart_removeOne one_lesson 0%nat math 2 eq_refl eq_refl _))).
  intros j l' Hl' _ _.
  destruct j as [|j]; [done | discriminate Hl'].
Defined.

(** ** Checkout form *)

Lemma in_range_between lo hi c : JS.in_range lo hi c = true ↔ between lo hi c.
Proof.
  unfold JS.in_range, between.
  rewrite andb_true_iff, !Nat.leb_le. done.
Qed.

Lemma class_mem_letters_or_space c :
  class_mem letters_or_space c = true ↔ is_letter_or_space c.
Proof.
  unfold class_mem, letters_or_space, is_letter_or_space, is_letter. simpl.
  rewrite !orb_true_iff, !in_range_between.
  assert (between " " " " c ↔ c = " "%char) as ->.
  { unfold between. split; [|by intros ->].
    intros H. rewrite <- (ascii_nat_embedding c).
    replace (nat_of_ascii c) with (nat_of_ascii " ") by lia. done. }
  intuition discriminate.
Qed.

Lemma class_mem_digits c : class_mem digits c = true ↔ is_digit c.
Proof.
  unfold class_mem, digits, is_digit. simpl.
  rewrite orb_false_r. apply in_range_between.
Qed.

Lemma all_in_class_chars cls s :
  all_in_class cls s = true ↔ ∀ c, c ∈ chars s → class_mem cls c = true.
Proof.
  induction s as [|a s IH]; simpl.
  - split; [|done]. intros _ c Hc. by apply elem_of_nil in Hc.
  - rewrite andb_true_iff, IH. split.
    + intros [Ha Hs] c Hc. apply elem_of_cons in Hc as [->|Hc]; auto.
    + intros H. split; [apply H; apply list_elem_of_here|].
      intros c Hc. apply H. by apply list_elem_of_further.
Qed.

Lemma test_class_plus_matches cls s :
  test_class_plus cls s = true ↔ matches_plus (λ c, class_mem cls c = true) s.
Proof.
  unfold matches_plus. rewrite <- all_in_class_chars.
  destruct s as [|a s]; simpl.
  - split; [done | by intros [? _]].
  - split; [by intros H | by intros [_ H]].
Qed.

Lemma matches_plus_iff (P Q : ascii → Prop) s :
  (∀ c, P c ↔ Q c) → matches_plus P s ↔ matches_plus Q s.
Proof.
  intros H. unfold matches_plus.
  split; intros [Hne Hall]; (split; [done|]); intros c Hc; apply H; auto.
Qed.

(** A digit is no letter and no space, and a letter is no digit. *)
Lemma digit_not_letter_or_space c : is_digit c → ¬ is_letter_or_space c.
Proof.
  unfold is_digit, is_letter_or_space, is_letter, between.
  intros Hd [[H|H]| ->]; code_units; lia.
Qed.

Lemma letter_not_digit c : is_letter c → ¬ is_digit c.
Proof.
  unfold is_digit, is_letter, between. intros [H|H] Hd; code_units; lia.
Qed.

Lemma isCheckoutValid_iff s :
  isCheckoutValid s = true ↔
    matches_plus is_letter_or_space (name (customer s))
    ∧ matches_plus is_digit (phone (customer s))
    ∧ cart s ≠ [].
Proof.
  unfold isCheckoutValid. cbv zeta.
  rewrite !andb_true_iff, !test_class_plus_matches, Z.ltb_lt.
  rewrite (matches_plus_iff _ _ _ class_mem_letters_or_space).
  rewrite (matches_plus_iff _ _ _ class_mem_digits).
  assert (0 < Z.of_nat (length (cart s)) ↔ cart s ≠ []) as ->; [|tauto].
  destruct (cart s); simpl; split; (done || lia).
Qed.

Lemma checkout_invalid server s w :
  isCheckoutValid s = false → checkout server (s, w) = (Fulfilled tt, (s, w)).
Proof.
  intros H. unfold checkout, mbind, Async_bind, this. simpl. by rewrite H.
Qed.

(** C8.  [isCheckoutValid] holds exactly when the name matches
    [^[A-Za-z ]+$], the phone matches [^[0-9]+$] and the cart is not
    empty.  So it is false for an empty cart, for a name with a digit and
    for a phone with a letter, and true for the name "Jane Doe" and the
    phone "5551234" with a cart that is not empty.  Whenever it is false,
    [checkout] returns at once: the component is as before, and nothing
    is sent, notified or logged. *)
Theorem isCheckoutValid_spec (s : App) :
  (isCheckoutValid s = true ↔
     matches_plus is_letter_or_space (name (customer s))
     ∧ matches_plus is_digit (phone (customer s))
     ∧ cart s ≠ [])
  ∧ (cart s = [] → isCheckoutValid s = false)
  ∧ ((∃ c, c ∈ chars (name (customer s)) ∧ is_digit c) → isCheckoutValid s = false)
  ∧ ((∃ c, c ∈ chars (phone (customer s)) ∧ is_letter c) → isCheckoutValid s = false)
  ∧ (name (customer s) = "Jane Doe" → phone (customer s) = "5551234" → cart s ≠ [] →
       isCheckoutValid s = true)
  ∧ (isCheckoutValid s = false →
       ∀ server w, checkout server (s, w) = (Fulfilled tt, (s, w))).
Proof.
  split; [apply isCheckoutValid_iff|].
  split; [|split; [|split; [|split]]].
  - intros Hc. apply not_true_is_false. rewrite isCheckoutValid_iff. tauto.
  - intros (c & Hc & Hd). apply not_true_is_false. rewrite isCheckoutValid_iff.
    intros [[_ Hn] _]. by apply (digit_not_letter_or_space c Hd), Hn.
  - intros (c & Hc & Hl). apply not_true_is_false. rewrite isCheckoutValid_iff.
    intros (_ & [_ Hp] & _). by apply (letter_not_digit c Hl), Hp.
  - intros Hn Hp Hc. unfold isCheckoutValid. rewrite Hn, Hp.
    destruct (cart s); done.
  - intros H server w. by apply checkout_invalid.
Qed.

Lemma isCheckoutValid_spec_witness :
  isCheckoutValid jane = true
  ∧ isCheckoutValid (set_cart [] jane) = false
  ∧ isCheckoutValid (set_customer (mkCustomer "Jane Doe 2" "5551234") jane) = false
  ∧ isCheckoutValid (set_customer (mkCustomer "Jane Doe" "555x234") jane) = false
  ∧ checkout (λ _ _, Rejected "offline") (set_cart [] jane, quiet)
    = (Fulfilled tt, (set_cart [] jane, quiet)).
Proof.
  split; [|split; [|split; [|split]]].
  - apply (proj1 (proj2 (proj2 (proj2 (proj2 (isCheckoutValid_spec jane))))));
      [reflexivity | reflexivity | discriminate].
  - apply (proj1 (proj2 (isCheckoutValid_spec (set_cart [] jane)))). reflexivity.
  - apply (proj1 (proj2 (proj2 (isCheckoutValid_spec
             (set_customer (mkCustomer "Jane Doe 2" "5551234") jane))))).
    exists "2"%char. split.
    + apply list_elem_of_lookup. by exists 9%nat.
    + unfold is_digit, between. vm_compute. lia.
  - apply (proj1 (proj2 (proj2 (proj2 (isCheckoutValid_spec
             (set_customer (mkCustomer "Jane Doe" "555x234") jane)))))).
    exists "x"%char. split.
    + apply list_elem_of_lookup. by exists 3%nat.
    + right. unfold between. vm_compute. lia.
  - apply (proj2 (proj2 (proj2 (proj2 (proj2 (isCheckoutValid_spec (set_cart [] jane))))))).
    reflexivity.
Defined.

(** ** Catalog load *)

Lemma loadLessons_success server s w res data :
  server (sent w) (lessons_request s) = Resolved res →
  ok res = true → json res = Some data →
  loadLessons server (s, w)
  = (Fulfilled tt, (set_lessons data s, requested (lessons_request s) w)).
Proof.
  intros Hr Hok Hj.
  unfold loadLessons, try_catch, mbind, Async_bind, this, fetch. simpl.
  fold (lessons_request s). rewrite Hr, Hok. simpl.
  unfold await_json. by rewrite Hj.
Qed.

(** C9.  When [loadLessons] fails, by a transport error or by a status
    outside 2xx (or by a body that cannot be read), the component is left
    as it was, the catalog included; one notification "Could not load
    lessons." is produced and the error is logged; the request was sent
    once and is not sent again; the method itself completes. *)
Theorem loadLessons_failure (server : Server) (s : App) (w : World) (err : string) :
  load_fails (server (sent w) (lessons_request s)) err →
  loadLessons server (s, w)
  = (Fulfilled tt,
     (s, notified "Could not load lessons." ("Could not load lessons:", err)
           (requested (lessons_request s) w))).
Proof.
  intros Hf.
  unfold loadLessons, try_catch, mbind, Async_bind, this, fetch. simpl.
  fold (lessons_request s).
  inversion Hf as [reason Hr | res Hok Hr | res Hok Hj Hr]; subst.
  - done.
  - by rewrite Hok.
  - rewrite Hok. simpl. unfold await_json. by rewrite Hj.
Qed.

Lemma loadLessons_failure_witness :
  (after (loadLessons offline) one_seat quiet).1 = one_seat
  ∧ alerts (after (loadLessons offline) one_seat quiet).2 = ["Could not load lessons."]
  ∧ sent (after (loadLessons offline) one_seat quiet).2 = [lessons_request one_seat]
  ∧ after (loadLessons unavailable) one_seat quiet
    = (one_seat, notified "Could not load lessons."
                   ("Could not load lessons:", "Failed to fetch lessons")
                   (requested (lessons_request one_seat) quiet)).
Proof.
  pose proof (loadLessons_failure offline one_seat quiet "Failed to fetch"
                (transport_error "Failed to fetch")) as H1.
  pose proof (loadLessons_failure unavailable one_seat quiet "Failed to fetch lessons"
                (bad_status (mkResponse false None) eq_refl)) as H2.
  unfold after. rewrite H1, H2. done.
Defined.

(** ** Checkout *)

(** A failed order submission: nothing else is sent, the component is as
    before, the notification is produced. *)
Lemma checkout_order_fails server s w err :
  isCheckoutValid s = true →
  order_fails (server (sent w) (order_request s)) err →
  checkout server (s, w)
  = (Fulfilled tt, (s, order_problem err (requested (order_request s) w))).
Proof.
  intros Hv Hf.
  unfold checkout, try_catch, mbind, Async_bind, this, fetch. simpl.
  rewrite Hv. simpl. fold (order_request s).
  inversion Hf as [reason Hr | res Hok Hr]; subst; [done|].
  by rewrite Hok.
Qed.

(** One update: a lesson that is not found sends nothing; a rejected
    request throws; a response is not looked at, whatever its status. *)
Lemma put_spaces_skip server item s w :
  find_lesson item (lessons s) = None →
  put_spaces server item (s, w) = (Fulfilled tt, (s, w)).
Proof.
  intros Hf. unfold put_spaces, mbind, Async_bind, this. simpl. by rewrite Hf.
Qed.

Lemma put_spaces_rejected server item s w i l reason :
  find_lesson item (lessons s) = Some (i, l) →
  server (sent w) (spaces_request s item l) = Rejected reason →
  put_spaces server item (s, w) = (Threw reason, (s, requested (spaces_request s item l) w)).
Proof.
  intros Hf Hr. unfold put_spaces, mbind, Async_bind, this, fetch. simpl.
  rewrite Hf. simpl. fold (spaces_request s item l). by rewrite Hr.
Qed.

Lemma put_spaces_resolved server item s w i l res :
  find_lesson item (lessons s) = Some (i, l) →
  server (sent w) (spaces_request s item l) = Resolved res →
  put_spaces server item (s, w) = (Fulfilled tt, (s, requested (spaces_request s item l) w)).
Proof.
  intros Hf Hr. unfold put_spaces, mbind, Async_bind, this, fetch. simpl.
  rewrite Hf. simpl. fold (spaces_request s item l). by rewrite Hr.
Qed.

(** The loop stops at the first iteration that throws: the items behind
    it are not visited. *)
Lemma for_of_throws {A} (body : A → Async unit) done x rest m m1 m2 err :
  for_of done body m = (Fulfilled tt, m1) →
  body x m1 = (Threw err, m2) →
  for_of (done ++ x :: rest) body m = (Threw err, m2).
Proof.
  revert m. induction done as [|y done IH]; intros m Hd Hx; simpl in *.
  - injection Hd as <-. unfold mbind, Async_bind. by rewrite Hx.
  - unfold mbind, Async_bind in *.
    destruct (body y m) as [[[]|e] m'] eqn:Hy; [|done].
    by apply IH.
Qed.

(** An update loop that throws: the component is as before and the
    notification is produced. *)
Lemma checkout_update_throws server s w res err w2 :
  isCheckoutValid s = true →
  server (sent w) (order_request s) = Resolved res →
  ok res = true →
  for_of (cart s) (put_spaces server) (s, requested (order_request s) w)
  = (Threw err, (s, w2)) →
  checkout server (s, w) = (Fulfilled tt, (s, order_problem err w2)).
Proof.
  intros Hv Hr Hok Hloop.
  unfold checkout, try_catch, mbind, Async_bind, this, fetch. simpl.
  rewrite Hv. simpl. fold (order_request s). rewrite Hr, Hok. simpl.
  fold (requested (order_request s) w).
  unfold mbind, Async_bind in Hloop. by rewrite Hloop.
Qed.

(** X13.  A rejected update (no connection during the loop): the updates
    before it were sent, those behind it are not, the component is as
    before, cart and customer included, and the notification is produced,
    although the backend has accepted the order. *)
Lemma checkout_update_rejected server s w res done item rest w1 i l reason :
  isCheckoutValid s = true →
  server (sent w) (order_request s) = Resolved res →
  ok res = true →
  cart s = (done ++ item :: rest)%list →
  for_of done (put_spaces server) (s, requested (order_request s) w)
  = (Fulfilled tt, (s, w1)) →
  find_lesson item (lessons s) = Some (i, l) →
  server (sent w1) (spaces_request s item l) = Rejected reason →
  checkout server (s, w)
  = (Fulfilled tt, (s, order_problem reason (requested (spaces_request s item l) w1))).
Proof.
  intros Hv Hr Hok Hcart Hdone Hfind Hrej.
  apply (checkout_update_throws _ _ _ res); try done.
  rewrite Hcart.
  apply (for_of_throws _ _ _ _ _ (s, w1)); [done|].
  by apply (put_spaces_rejected _ _ _ _ i).
Qed.

(** C1 (the code departs from it).  The claim: a failure of any backend
    call of the checkout, a status outside 2xx on an availability update
    included, ends in the failed state with the cart and the customer
    kept.  [checkout] tests [res.ok] on the order submission only; the
    response of an update is dropped.  With one seat in the cart, a valid
    customer and a backend that refuses the update, the order, the update
    and the reload are sent, no notification is produced, and the cart and
    the customer are cleared as after a success. *)
Theorem checkout_ignores_update_status :
  let put := spaces_request jane (seat_of math) math_taken in
  let m := after (checkout refusing_updates) jane quiet in
  isCheckoutValid jane = true
  ∧ refusing_updates [order_request jane] put = Resolved (mkResponse false None)
  ∧ sent m.2 = [order_request jane; put; lessons_request jane]
  ∧ alerts m.2 = []
  ∧ cart jane = [seat_of math]
  ∧ cart m.1 = []
  ∧ customer m.1 = mkCustomer "" ""
  ∧ orderMessage m.1 = "Order submitted!".
Proof. by vm_compute. Qed.

(** * Further properties *)

(** ** More on strings *)

Lemma string_app_cons (x : ascii) (a b : string) :
  String x a +:+ b = String x (a +:+ b).
Proof. reflexivity. Qed.

Lemma string_app_assoc (a b c : string) : (a +:+ b) +:+ c = a +:+ (b +:+ c).
Proof.
  induction a as [|x a IH]; [done|].
  by rewrite !string_app_cons, IH.
Qed.

Lemma startsWith_iff s t : JS.startsWith s t = true ↔ ∃ post, s = t +:+ post.
Proof.
  revert s. induction t as [|b t IH]; intros s.
  - split; [by exists s | by destruct s].
  - destruct s as [|a s]; simpl.
    + split; [done|]. intros [post Hp]. by rewrite string_app_cons in Hp.
    + case_decide as Hab.
      * subst b. rewrite IH. split; intros [post Hp]; exists post.
        -- by rewrite string_app_cons, <- Hp.
        -- rewrite string_app_cons in Hp. congruence.
      * split; [done|]. intros [post Hp].
        rewrite string_app_cons in Hp. congruence.
Qed.

Lemma includes_nil t : JS.includes "" t = JS.startsWith "" t.
Proof. destruct t; reflexivity. Qed.

Lemma includes_cons a s t :
  JS.includes (String a s) t = JS.startsWith (String a s) t || JS.includes s t.
Proof. reflexivity. Qed.

Lemma includes_iff s t : JS.includes s t = true ↔ ∃ pre post, s = pre +:+ (t +:+ post).
Proof.
  induction s as [|a s IH].
  - rewrite includes_nil, startsWith_iff. split.
    + intros [post Hp]. by exists "", post.
    + intros (pre & post & Hp). destruct pre as [|x pre]; [by exists post|].
      by rewrite string_app_cons in Hp.
  - rewrite includes_cons, orb_true_iff, startsWith_iff, IH. split.
    + intros [[post Hp] | (pre & post & Hp)].
      * by exists "", post.
      * exists (String a pre), post. by rewrite string_app_cons, <- Hp.
    + intros (pre & post & Hp). destruct pre as [|x pre].
      * left. by exists post.
      * right. exists pre, post. rewrite string_app_cons in Hp. congruence.
Qed.

(** A text that contains [t2] contains every text [t2] contains. *)
Lemma includes_trans s t2 t1 :
  JS.includes s t2 = true → JS.includes t2 t1 = true → JS.includes s t1 = true.
Proof.
  rewrite !includes_iff. intros (pre & post & ->) (pre' & post' & ->).
  exists (pre +:+ pre'), (post' +:+ post).
  by rewrite !string_app_assoc.
Qed.

Lemma includes_in_empty t : JS.includes "" t = true → t = "".
Proof. by destruct t. Qed.

(** ** More on the search *)

Lemma filter_sublist {A} (f g : A → bool) (l : list A) :
  (∀ x, f x = true → g x = true) → List.filter f l `sublist_of` List.filter g l.
Proof.
  intros Hfg. induction l as [|x l IH]; simpl; [constructor|].
  destruct (f x) eqn:Hf.
  - rewrite (Hfg x Hf). by constructor.
  - destruct (g x); [by constructor | done].
Qed.

Lemma lesson_matches_narrows t2 t1 l :
  JS.includes t2 t1 = true → lesson_matches t2 l = true → lesson_matches t1 l = true.
Proof.
  intros Ht. unfold lesson_matches. cbv zeta. rewrite !orb_true_iff.
  intros [[[H|H]|H]|H]; eauto using includes_trans.
Qed.

Lemma kept_narrows t2 t1 l :
  JS.includes t2 t1 = true → kept t2 l = true → kept t1 l = true.
Proof.
  intros Ht. unfold kept. rewrite !orb_true_iff, !bool_decide_eq_true.
  intros [-> | H].
  - left. by apply includes_in_empty.
  - right. by apply (lesson_matches_narrows t2).
Qed.

(** X1.  Search as you type narrows: when the lower-cased form of a
    longer query contains the lower-cased form of the query [q], the
    lessons found for the longer query are among the lessons found for
    [q], in the same order. *)
Theorem search_narrows (s : App) (q longer : string) :
  JS.includes (JS.toLowerCase longer) (JS.toLowerCase q) = true →
  searchedLessons (set_searchQuery longer s)
    `sublist_of` searchedLessons (set_searchQuery q s).
Proof.
  intros Hq. rewrite !searchedLessons_filter. simpl.
  apply filter_sublist. intros l. by apply kept_narrows.
Qed.

Lemma search_narrows_witness :
  searchedLessons (set_searchQuery "Math" (set_lessons [math; art] initial))
    `sublist_of` searchedLessons (set_searchQuery "ma" (set_lessons [math; art] initial)).
Proof.
  exact (search_narrows (set_lessons [math; art] initial) "ma" "Math" eq_refl).
Defined.

(** X2.  The search and the display take their lessons from the catalog:
    the searched list is the catalog with lessons left out, the displayed
    list holds no lesson more often than the catalog does, and with an
    empty query the displayed list is a rearrangement of the whole
    catalog. *)
Theorem display_from_catalog (s : App) :
  searchedLessons s `sublist_of` lessons s
  ∧ displayedLessons s ⊆+ lessons s
  ∧ displayedLessons (set_searchQuery "" s) ≡ₚ lessons s.
Proof.
  assert (searchedLessons s `sublist_of` lessons s) as Hsub.
  { rewrite searchedLessons_filter.
    rewrite <- (filter_all (λ _, true) (lessons s)) at 2 by done.
    by apply filter_sublist. }
  assert (∀ s', displayedLessons s' ≡ₚ searchedLessons s') as Hperm.
  { intros s'. unfold displayedLessons, sortedLessons. case_decide.
    - by rewrite <- Permutation_rev, array_sort_perm.
    - apply array_sort_perm. }
  split; [done|]. split.
  - rewrite Hperm. by apply sublist_submseteq.
  - rewrite Hperm. by rewrite searchedLessons_empty_query.
Qed.

(** ** More on the sort *)

Lemma sort_insert_front {A} (cmp : A → A → Z) x l :
  (∀ y, cmp x y ≤ 0) → sort_insert cmp x l = x :: l.
Proof.
  intros H. destruct l as [|y l]; simpl; [done|].
  destruct (Z.ltb_spec 0 (cmp x y)); [|done]. specialize (H y). lia.
Qed.

Lemma array_sort_all_ties {A} (cmp : A → A → Z) l :
  (∀ x y, cmp x y ≤ 0) → array_sort cmp l = l.
Proof.
  intros H. induction l as [|x l IH]; simpl; [done|].
  rewrite IH. apply sort_insert_front. apply H.
Qed.

Lemma getSortValue_unknown s l :
  ¬ known_attribute (sortAttribute s) → getSortValue s l = Numeric 0.
Proof.
  unfold known_attribute, getSortValue. intros H.
  repeat case_decide; tauto.
Qed.

(** X3.  With a sort attribute other than the four that [getSortValue]
    knows, every lesson has the sort value 0: the ascending display is
    the searched list in its own order and the descending display is that
    list reversed. *)
Theorem sort_by_unknown_attribute (s : App) :
  ¬ known_attribute (sortAttribute s) →
  sortedLessons (set_sortDir "asc" s) = searchedLessons s
  ∧ sortedLessons (set_sortDir "desc" s) = rev (searchedLessons s).
Proof.
  intros Hu.
  assert (array_sort (compareLessons s) (searchedLessons s) = searchedLessons s) as H.
  { apply array_sort_all_ties. intros x y.
    rewrite compareLessons_tie; [done|]. by rewrite !getSortValue_unknown. }
  split.
  - exact H.
  - change (rev (array_sort (compareLessons s) (searchedLessons s))
            = rev (searchedLessons s)). by rewrite H.
Qed.

Lemma sort_by_unknown_attribute_witness :
  sortedLessons (set_sortDir "desc" (set_sortAttribute "rating"
     (set_lessons [priced 10; priced 30; priced 20] initial)))
  = [priced 20; priced 30; priced 10].
Proof.
  refine (proj2 (sort_by_unknown_attribute
            (set_sortAttribute "rating"
               (set_lessons [priced 10; priced 30; priced 20] initial)) _)).
  unfold known_attribute. simpl. intros [H|[H|[H|H]]]; discriminate H.
Defined.

(** ** Seats *)

Lemma sum_Z_insert (l : list Z) i x y :
  l !! i = Some x → sum_Z (<[i := y]> l) = sum_Z l - x + y.
Proof.
  revert i. induction l as [|a l IH]; intros [|i] Hi; simpl in *; try done.
  - injection Hi as ->. lia.
  - rewrite (IH i Hi). lia.
Qed.

Lemma map_insert {A B} (f : A → B) (l : list A) i x :
  map f (<[i := x]> l) = <[i := f x]> (map f l).
Proof.
  revert i. induction l as [|a l IH]; intros [|i]; simpl; try done.
  by rewrite IH.
Qed.

Lemma available_insert k ls i l l' :
  ls !! i = Some l →
  available k (<[i := l']> ls) = available k ls - offered k l + offered k l'.
Proof.
  intros Hl. unfold available. rewrite map_insert.
  apply sum_Z_insert. by rewrite list_lookup_fmap, Hl.
Qed.

Lemma held_push k items item : held k (items ++ [item]) = held k items + holds k item.
Proof. unfold held. rewrite map_app, sum_Z_app. simpl. lia. Qed.

Lemma held_delete k items i item :
  items !! i = Some item → held k (delete i items) = held k items - holds k item.
Proof.
  intros Hi. unfold held. rewrite map_delete.
  apply sum_Z_delete. by rewrite list_lookup_fmap, Hi.
Qed.

Lemma offered_spaces k l v :
  offered k (Lesson.set_spaces v l)
  = if decide (lesson_key l = k) then JS.number_or_zero v else 0.
Proof. done. Qed.

Lemma holds_seat_of k l :
  holds k (seat_of l) = if decide (lesson_key l = k) then 1 else 0.
Proof. done. Qed.

(** X4.  [addToCart] conserves seats: for a lesson with a number of
    seats, and for every key, the seats the catalog offers under the key
    plus the seats of that key held in the cart are the same before and
    after (whether a seat was taken or not, and even when several lessons
    share the key). *)
Theorem addToCart_conserves_seats (s : App) (i : nat) (l : Lesson.t) (z : Z) (k : Key) :
  lessons s !! i = Some l →
  Lesson.spaces l = Some (Num z) →
  seats k (addToCart (Some i) s) = seats k s.
Proof.
  intros Hl Hz.
  destruct (JS.le_zero (Lesson.spaces l)) eqn:Hfull.
  { by rewrite (addToCart_full _ _ _ Hl Hfull). }
  rewrite (addToCart_ok _ _ _ Hl Hfull). unfold seats. simpl.
  rewrite (available_insert _ _ _ l) by done.
  rewrite held_push, holds_seat_of, offered_spaces.
  unfold offered. rewrite Hz. simpl.
  case_decide; lia.
Qed.

Lemma addToCart_conserves_seats_witness :
  seats (Some "Math", Some "Hall A") (addToCart (Some 0%nat) one_lesson)
  = seats (Some "Math", Some "Hall A") one_lesson.
Proof.
  exact (addToCart_conserves_seats one_lesson 0%nat math 2 (Some "Math", Some "Hall A")
           eq_refl eq_refl).
Defined.

(** X5.  [removeOne] on the cart entry of its index conserves seats when a
    lesson with a number of seats has the entry's key.  When no lesson has
    the key (the catalog was reloaded without it), the seat is lost: the
    count of the entry's key drops by one and no other count changes. *)
Theorem removeOne_conserves_seats (s : App) (idx : Z) (item : Item.t) (k : Key) :
  0 ≤ idx →
  cart s !! Z.to_nat idx = Some item →
  (∀ i l z, first_match item (lessons s) i l → Lesson.spaces l = Some (Num z) →
            seats k (removeOne idx item s) = seats k s)
  ∧ (no_match item (lessons s) →
     seats k (removeOne idx item s) = seats k s - holds k item).
Proof.
  intros Hidx Hitem.
  assert (0 ≤ idx < Z.of_nat (length (cart s))) as Hb.
  { apply lookup_lt_Some in Hitem. lia. }
  split.
  - intros i l z Hm Hz. rewrite (removeOne_first_match _ _ _ _ _ Hb Hm).
    unfold seats. simpl.
    destruct Hm as (Hl & [Hs Hc] & _).
    rewrite (available_insert _ _ _ l) by done.
    rewrite (held_delete _ _ _ item) by done.
    unfold seat_back. rewrite offered_spaces. unfold offered, holds.
    assert (lesson_key l = item_key item) as Hk.
    { unfold lesson_key, item_key. by rewrite Hs, Hc. }
    rewrite Hk, Hz. simpl. case_decide; lia.
  - intros Hm. rewrite (removeOne_no_match _ _ _ Hb Hm).
    unfold seats. simpl. rewrite (held_delete _ _ _ item) by done. lia.
Qed.

Lemma removeOne_conserves_seats_witness :
  seats (Some "Math", Some "Hall A") (removeOne 0 (seat_of math) one_seat)
  = seats (Some "Math", Some "Hall A") one_seat
  ∧ seats (Some "Art", Some "Hall B") (removeOne 0 art_seat orphan_seat)
    = seats (Some "Art", Some "Hall B") orphan_seat - 1.
Proof.
  split.
  - exact (proj1 (removeOne_conserves_seats one_seat 0 (seat_of math)
                    (Some "Math", Some "Hall A") ltac:(lia) eq_refl)
             0%nat math_taken 1 first_match_math eq_refl).
  - exact (proj2 (removeOne_conserves_seats orphan_seat 0 art_seat
                    (Some "Art", Some "Hall B") ltac:(lia) eq_refl)
             no_match_art).
Defined.

(** X6.  Seats never go below zero: when every lesson has a number of
    seats that is not negative, this is still so after [addToCart] and
    after [removeOne], whatever their arguments. *)
Theorem spaces_stay_non_negative (s : App) (lesson : option nat) (idx : Z) (item : Item.t) :
  Forall stocked (lessons s) →
  Forall stocked (lessons (addToCart lesson s))
  ∧ Forall stocked (lessons (removeOne idx item s)).
Proof.
  intros Hs. split.
  - destruct lesson as [i|]; [|done]. unfold addToCart.
    destruct (lessons s !! i) as [l|] eqn:Hl; [|done].
    destruct (JS.le_zero (Lesson.spaces l)) eqn:Hfull; [done|]. simpl.
    apply Forall_insert; [done|].
    destruct (proj1 (Forall_lookup _ _) Hs i l Hl) as (z & Hz & Hpos).
    rewrite Hz in *. simpl in Hfull. exists (z + -1). split; [done | lia].
  - unfold removeOne.
    destruct ((idx <? 0) || (idx >=? Z.of_nat (length (cart s)))); [done|]. simpl.
    destruct (find_lesson item (lessons s)) as [[i l]|] eqn:Hf; [|done]. simpl.
    apply Forall_insert; [done|].
    apply list_find_Some in Hf as (Hl & _ & _).
    destruct (proj1 (Forall_lookup _ _) Hs i l Hl) as (z & Hz & Hpos).
    exists (z + 1). rewrite Hz. split; [done | lia].
Qed.

Lemma spaces_stay_non_negative_witness :
  Forall stocked (lessons (addToCart (Some 0%nat) one_seat))
  ∧ Forall stocked (lessons (removeOne 0 (seat_of math) one_seat)).
Proof.
  apply (spaces_stay_non_negative one_seat (Some 0%nat) 0 (seat_of math)).
  repeat constructor. exists 1. split; [reflexivity | lia].
Defined.

Lemma seat_back_with_spaces l z :
  Lesson.spaces l = Some (Num z) → seat_back l = with_spaces (z + 1) l.
Proof. intros Hz. unfold seat_back, with_spaces. by rewrite Hz. Qed.

(** X7.  With two lessons of one key, a seat taken from the later one goes
    back to the first one: after [addToCart] on the later lesson and
    [removeOne] on the entry just pushed, the cart is as before, the
    later lesson has one seat less and the first lesson one seat more. *)
Theorem seat_returns_to_first_match (s : App) (i j : nat) (li lj : Lesson.t) (zi zj : Z) :
  lessons s !! j = Some lj →
  first_match (seat_of lj) (lessons s) i li →
  (i < j)%nat →
  Lesson.spaces li = Some (Num zi) →
  Lesson.spaces lj = Some (Num zj) →
  0 < zj →
  removeOne (Z.of_nat (length (cart s))) (seat_of lj) (addToCart (Some j) s)
  = set_lessons (<[i := with_spaces (zi + 1) li]> (<[j := with_spaces (zj - 1) lj]> (lessons s))) s.
Proof.
  intros Hj (Hi & Hkey & Hfirst) Hij Hzi Hzj Hpos.
  rewrite (addToCart_ok _ _ _ Hj) by (rewrite Hzj; simpl; lia).
  rewrite (removeOne_first_match _ _ _ i li).
  - simpl. rewrite Nat2Z.id.
    rewrite (delete_middle (cart s) [] (seat_of _)), app_nil_r.
    rewrite (seat_back_with_spaces _ _ Hzi). rewrite Hzj. simpl.
    replace (zj + -1) with (zj - 1) by lia.
    by destruct s.
  - simpl. rewrite length_app. simpl. lia.
  - simpl. split; [|split].
    + rewrite list_lookup_insert_ne by lia. done.
    + done.
    + intros j' l' Hl' Hlt. rewrite list_lookup_insert_ne in Hl' by lia.
      by apply (Hfirst j' l').
Qed.

Lemma seat_returns_to_first_match_witness :
  removeOne 0 (seat_of math_evening) (addToCart (Some 1%nat) twin_lessons)
  = set_lessons [with_spaces 3 math; with_spaces 7 math_evening] twin_lessons.
Proof.
  refine (seat_returns_to_first_match twin_lessons 0 1 math math_evening 2 8
            eq_refl _ ltac:(lia) eq_refl eq_refl ltac:(lia)).
  split; [reflexivity|]. split; [by split|].
  intros j l' _ Hj. lia.
Defined.

(** ** More on the catalog load *)

Lemma set_lessons_same s : set_lessons (lessons s) s = s.
Proof. by destruct s. Qed.

Lemma sending_nil w : sending [] w = w.
Proof. destruct w. unfold sending. simpl. by rewrite app_nil_r. Qed.

Lemma sending_sending r1 r2 w : sending r2 (sending r1 w) = sending (r1 ++ r2)%list w.
Proof. unfold sending. simpl. by rewrite app_assoc. Qed.

(** The two ways a catalog load ends. *)
Lemma loadLessons_run server s w :
  (∃ data, loadLessons server (s, w)
           = (Fulfilled tt, (set_lessons data s, requested (lessons_request s) w)))
  ∨ (∃ err, loadLessons server (s, w)
            = (Fulfilled tt,
               (s, notified "Could not load lessons." ("Could not load lessons:", err)
                     (requested (lessons_request s) w)))).
Proof.
  destruct (server (sent w) (lessons_request s)) as [reason|res] eqn:Hr.
  - right. exists reason. apply loadLessons_failure. rewrite Hr. constructor.
  - destruct (ok res) eqn:Hok; [destruct (json res) as [data|] eqn:Hj|].
    + left. exists data. by apply (loadLessons_success _ _ _ res).
    + right. eexists. apply loadLessons_failure. rewrite Hr. by constructor.
    + right. eexists. apply loadLessons_failure. rewrite Hr. by constructor.
Qed.

Lemma loadLessons_fulfils server s w :
  ∃ ls w', loadLessons server (s, w) = (Fulfilled tt, (set_lessons ls s, w')).
Proof.
  destruct (loadLessons_run server s w) as [[data ->] | [err ->]].
  - by eexists _, _.
  - exists (lessons s). rewrite set_lessons_same. by eexists.
Qed.

(** X8.  [loadLessons] always completes (it never throws to its caller),
    whatever the backend does.  It sends one request, changes nothing of
    the component but the catalog, and produces at most one notification;
    when it notifies, the catalog is the one before. *)
Theorem loadLessons_settles (server : Server) (s : App) (w : World) :
  ∃ ls w',
    loadLessons server (s, w) = (Fulfilled tt, (set_lessons ls s, w'))
    ∧ sent w' = (sent w ++ [lessons_request s])%list
    ∧ (alerts w' = alerts w
       ∨ (ls = lessons s ∧ alerts w' = (alerts w ++ ["Could not load lessons."])%list)).
Proof.
  destruct (loadLessons_run server s w) as [[data ->] | [err ->]].
  - exists data, (requested (lessons_request s) w). by split; [|split; [|left]].
  - eexists (lessons s), _. rewrite set_lessons_same. by split; [|split; [|right]].
Qed.

(** ** More on the checkout *)

(** One update leaves the component alone and sends at most one request. *)
Lemma put_spaces_run server item s w :
  ∃ o reqs, put_spaces server item (s, w) = (o, (s, sending reqs w)).
Proof.
  destruct (find_lesson item (lessons s)) as [[i l]|] eqn:Hf.
  - destruct (server (sent w) (spaces_request s item l)) as [reason|res] eqn:Hr.
    + exists (Threw reason), [spaces_request s item l].
      by apply (put_spaces_rejected _ _ _ _ i).
    + exists (Fulfilled tt), [spaces_request s item l].
      by apply (put_spaces_resolved _ _ _ _ i l res).
  - exists (Fulfilled tt), []. rewrite sending_nil. by apply put_spaces_skip.
Qed.

Lemma for_of_put_spaces_run server items s w :
  ∃ o reqs, for_of items (put_spaces server) (s, w) = (o, (s, sending reqs w)).
Proof.
  revert w. induction items as [|item items IH]; intros w; simpl.
  - exists (Fulfilled tt), []. by rewrite sending_nil.
  - unfold mbind, Async_bind.
    destruct (put_spaces_run server item s w) as (o & reqs & ->).
    destruct o as [[]|err].
    + destruct (IH (sending reqs w)) as (o' & reqs' & ->).
      exists o', (reqs ++ reqs')%list. by rewrite sending_sending.
    + by exists (Threw err), reqs.
Qed.

(** The three ways a checkout ends. *)
Lemma checkout_run server s w :
  (isCheckoutValid s = false ∧ checkout server (s, w) = (Fulfilled tt, (s, w)))
  ∨ (isCheckoutValid s = true
     ∧ ∃ err reqs, checkout server (s, w)
                   = (Fulfilled tt, (s, order_problem err (sending (order_request s :: reqs) w))))
  ∨ (isCheckoutValid s = true
     ∧ ∃ reqs, checkout server (s, w)
               = loadLessons server (submitted s, sending (order_request s :: reqs) w)).
Proof.
  destruct (isCheckoutValid s) eqn:Hv; [right | left; split; [done|]; by apply checkout_invalid].
  destruct (server (sent w) (order_request s)) as [reason|res] eqn:Hr.
  { left. split; [done|]. exists reason, [].
    apply checkout_order_fails; [done|]. rewrite Hr. constructor. }
  destruct (ok res) eqn:Hok.
  2:{ left. split; [done|]. exists "Order failed", [].
      apply checkout_order_fails; [done|]. rewrite Hr. by constructor. }
  destruct (for_of_put_spaces_run server (cart s) s (requested (order_request s) w))
    as (o & reqs & Hloop).
  change (requested (order_request s) w) with (sending [order_request s] w) in Hloop.
  rewrite sending_sending in Hloop. simpl in Hloop.
  destruct o as [[]|err].
  - right. split; [done|]. exists reqs.
    unfold checkout, try_catch, mbind, Async_bind, this, fetch. simpl.
    rewrite Hv. simpl. fold (order_request s). rewrite Hr, Hok. simpl.
    fold (requested (order_request s) w).
    unfold mbind, Async_bind in Hloop.
    change (requested (order_request s) w) with (sending [order_request s] w).
    rewrite Hloop. simpl. unfold assign. simpl.
    fold (submitted s).
    destruct (loadLessons_fulfils server (submitted s)
                (sending (order_request s :: reqs) w)) as (ls & w' & ->).
    done.
  - left. split; [done|]. exists err, reqs.
    by apply (checkout_update_throws _ _ _ res).
Qed.

(** X9.  [checkout] always completes (every failure ends in the [catch]
    or in the one of [loadLessons]), and it is all or nothing for the
    component: either the component is exactly as before, or the message
    is set and the cart and the customer are cleared together, the
    catalog alone depending on the reload. *)
Theorem checkout_all_or_nothing (server : Server) (s : App) (w : World) :
  ∃ s' w',
    checkout server (s, w) = (Fulfilled tt, (s', w'))
    ∧ (s' = s ∨ (isCheckoutValid s = true ∧ ∃ ls, s' = set_lessons ls (submitted s))).
Proof.
  destruct (checkout_run server s w)
    as [[_ ->] | [(_ & err & reqs & ->) | (Hv & reqs & ->)]].
  - exists s, w. by split; [|left].
  - eexists s, _. by split; [|left].
  - destruct (loadLessons_fulfils server (submitted s)
                (sending (order_request s :: reqs) w)) as (ls & w' & ->).
    exists (set_lessons ls (submitted s)), w'. split; [done|]. right. eauto.
Qed.

(** X10.  No double submission: when a checkout has changed the component
    (the order went through), a second [checkout] right after it, with
    any backend, does nothing at all. *)
Theorem checkout_twice (server server' : Server) (s s' : App) (w w' w'' : World) :
  checkout server (s, w) = (Fulfilled tt, (s', w')) →
  s' ≠ s →
  checkout server' (s', w'') = (Fulfilled tt, (s', w'')).
Proof.
  intros Hrun Hne.
  destruct (checkout_run server s w)
    as [[_ H] | [(_ & err & reqs & H) | (_ & reqs & H)]];
    rewrite H in Hrun.
  - injection Hrun as <- _. done.
  - injection Hrun as <- _. done.
  - destruct (loadLessons_fulfils server (submitted s)
                (sending (order_request s :: reqs) w)) as (ls & w1 & Hl).
    rewrite Hl in Hrun. injection Hrun as <- _.
    by apply checkout_invalid.
Qed.

Lemma checkout_twice_witness :
  checkout offline ((after (checkout obliging) jane quiet).1, quiet)
  = (Fulfilled tt, ((after (checkout obliging) jane quiet).1, quiet)).
Proof.
  refine (checkout_twice obliging offline jane
            ((after (checkout obliging) jane quiet).1) quiet
            ((after (checkout obliging) jane quiet).2) quiet _ _).
  - reflexivity.
  - discriminate.
Defined.

Lemma update_loop server items s w :
  answers server →
  for_of items (put_spaces server) (s, w)
  = (Fulfilled tt, (s, sending (omap (update_of s) items) w)).
Proof.
  intros Hserver. revert w. induction items as [|item items IH]; intros w; simpl.
  - by rewrite sending_nil.
  - unfold mbind, Async_bind, update_of.
    destruct (find_lesson item (lessons s)) as [[i l]|] eqn:Hf; simpl.
    + destruct (Hserver (sent w) (spaces_request s item l)) as [res Hr].
      rewrite (put_spaces_resolved _ _ _ _ i l res) by done.
      fold (update_of s). change (requested ?r w) with (sending [r] w).
      by rewrite IH, sending_sending.
    + rewrite put_spaces_skip by done. apply IH.
Qed.

(** X11.  The requests of a checkout that goes through.  With a valid
    form, a backend that answers every call and a 2xx answer to the order,
    [checkout] sends the order, then one update for each cart entry whose
    key a lesson has, in cart order (an entry per seat, so a lesson with
    two seats in the cart is updated twice, and an entry without lesson is
    skipped); each update carries the current [spaces] of the first lesson
    with the key.  Then the form is cleared and the catalog reloaded. *)
Theorem checkout_requests (server : Server) (s : App) (w : World) :
  answers server →
  isCheckoutValid s = true →
  (∀ res, server (sent w) (order_request s) = Resolved res → ok res = true) →
  checkout server (s, w)
  = loadLessons server
      (submitted s, sending (order_request s :: omap (update_of s) (cart s)) w).
Proof.
  intros Hserver Hv Hok.
  destruct (Hserver (sent w) (order_request s)) as [res Hr].
  specialize (Hok res Hr).
  unfold checkout, try_catch, mbind, Async_bind, this, fetch. simpl.
  rewrite Hv. simpl. fold (order_request s). rewrite Hr, Hok. simpl.
  change (mkWorld (sent w ++ [order_request s]) (alerts w) (console w))
    with (sending [order_request s] w).
  pose proof (update_loop server (cart s) s (sending [order_request s] w) Hserver) as Hloop.
  unfold mbind, Async_bind in Hloop. rewrite Hloop. simpl.
  rewrite sending_sending. simpl. unfold assign. simpl. fold (submitted s).
  destruct (loadLessons_fulfils server (submitted s)
              (sending (order_request s :: omap (update_of s) (cart s)) w))
    as (ls & w' & ->).
  done.
Qed.

Lemma checkout_requests_witness :
  checkout obliging (jane, quiet)
  = loadLessons obliging
      (submitted jane,
       sending [order_request jane; spaces_request jane (seat_of math) math_taken] quiet).
Proof.
  apply (checkout_requests obliging jane quiet).
  - intros history req. by eexists.
  - reflexivity.
  - intros res H. injection H as <-. reflexivity.
Defined.

(** X12.  A failed order submission (no connection, or a status outside
    2xx): the order is the only request sent, the component is exactly as
    before, one notification is produced, and the form is still valid, so
    the same order can be submitted again. *)
Theorem order_failure_keeps_form (server : Server) (s : App) (w : World) (err : string) :
  isCheckoutValid s = true →
  order_fails (server (sent w) (order_request s)) err →
  let m := after (checkout server) s w in
  m.1 = s
  ∧ sent m.2 = (sent w ++ [order_request s])%list
  ∧ alerts m.2 = (alerts w ++ ["There was a problem submitting your order."])%list
  ∧ isCheckoutValid m.1 = true
  ∧ order_request m.1 = order_request s.
Proof.
  intros Hv Hf. cbv zeta. unfold after.
  rewrite (checkout_order_fails _ _ _ _ Hv Hf). simpl. by rewrite Hv.
Qed.

Lemma order_failure_keeps_form_witness :
  (after (checkout unavailable) jane quiet).1 = jane
  ∧ sent (after (checkout unavailable) jane quiet).2 = [order_request jane].
Proof.
  pose proof (order_failure_keeps_form unavailable jane quiet "Order failed" eq_refl
                (order_refused (mkResponse false None) eq_refl)) as H.
  split; [exact (proj1 H) | exact (proj1 (proj2 H))].
Defined.

Lemma checkout_update_rejected_witness :
  checkout dropping (jane, quiet)
  = (Fulfilled tt,
     (jane, order_problem "Failed to fetch"
              (requested (spaces_request jane (seat_of math) math_taken)
                 (requested (order_request jane) quiet)))).
Proof.
  exact (checkout_update_rejected dropping jane quiet (mkResponse true None)
           [] (seat_of math) [] (requested (order_request jane) quiet)
           0%nat math_taken "Failed to fetch"
           eq_refl eq_refl eq_refl eq_refl eq_refl eq_refl eq_refl).
Defined.

(** ** Image URL *)

Lemma string_app_empty (a b : string) : a +:+ b = "" → a = "" ∧ b = "".
Proof. destruct a; [done|]. by rewrite string_app_cons. Qed.

Lemma startsWith_head c s d t :
  c ≠ d → JS.startsWith (String c s) (String d t) = false.
Proof. intros H. simpl. by case_decide. Qed.

(** X14.  [imageUrl] gives the empty string for a missing or empty [src]
    and for nothing else. *)
Theorem imageUrl_empty (URL_origin : string → option string) (src : option string) (s : App) :
  imageUrl URL_origin src s = "" ↔ src = None ∨ src = Some "".
Proof.
  unfold imageUrl. destruct src as [path|]; [|by split; [left|]].
  case_decide as Hp; [subst; by split; [right|]|].
  split.
  - destruct (JS.startsWith path "images/").
    + intros H. apply string_app_empty in H as [_ ->]. by right.
    + intros ->. by right.
  - intros [H|H]; congruence.
Qed.

(** X15.  [imageUrl] is idempotent when the origin of the backend does not
    begin with the letter i (an origin is a scheme such as http or https
    and a host, the word null, or empty for a malformed base): a resolved
    URL is not resolved a second time. *)
Theorem imageUrl_idempotent (URL_origin : string → option string) (src : option string) (s : App) :
  JS.startsWith (backendOrigin URL_origin s) "i" = false →
  imageUrl URL_origin (Some (imageUrl URL_origin src s)) s = imageUrl URL_origin src s.
Proof.
  intros Ho. destruct src as [path|]; [|done].
  destruct (decide (path = "")) as [->|Hp]; [done|].
  assert (imageUrl URL_origin (Some path) s
          = if JS.startsWith path "images/"
            then (backendOrigin URL_origin s +:+ "/") +:+ path else path) as ->.
  { unfold imageUrl. by case_decide. }
  destruct (JS.startsWith path "images/") eqn:Hs.
  - unfold imageUrl. case_decide as He; [by rewrite He|].
    destruct (backendOrigin URL_origin s) as [|c o].
    + change (("" +:+ "/") +:+ path) with (String "/" path).
      by rewrite startsWith_head.
    + rewrite !string_app_cons, startsWith_head; [done|].
      intros ->. apply not_true_iff_false in Ho. apply Ho.
      apply startsWith_iff. by exists o.
  - unfold imageUrl. case_decide; [done|]. by rewrite Hs.
Qed.

Lemma imageUrl_idempotent_witness :
  imageUrl deployed_origin
    (Some (imageUrl deployed_origin (Some "images/math.png") initial)) initial
  = imageUrl deployed_origin (Some "images/math.png") initial.
Proof.
  exact (imageUrl_idempotent deployed_origin (Some "images/math.png") initial eq_refl).
Defined.

(** ** More on the checkout form *)

(** X16.  The name need not hold a letter: a name made of spaces only,
    with a phone of digits and a cart that is not empty, passes
    [isCheckoutValid]. *)
Theorem blank_name_is_valid (s : App) :
  blank (name (customer s)) →
  matches_plus is_digit (phone (customer s)) →
  cart s ≠ [] →
  isCheckoutValid s = true.
Proof.
  intros [Hne Hall] Hp Hc. apply isCheckoutValid_iff.
  split; [|done]. split; [done|].
  intros c Hin. right. by apply Hall.
Qed.

Lemma blank_name_is_valid_witness :
  isCheckoutValid (set_customer (mkCustomer "   " "5551234") one_seat) = true.
Proof.
  apply blank_name_is_valid; simpl.
  - split; [discriminate|]. intros c Hc.
    apply list_elem_of_In in Hc. simpl in Hc. intuition.
  - split; [discriminate|]. intros c Hc.
    apply list_elem_of_In in Hc. unfold is_digit, between. simpl in Hc.
    destruct Hc as [<-|[<-|[<-|[<-|[<-|[<-|[<-|[]]]]]]]]; vm_compute; lia.
  - discriminate.
Defined.

(** ** Letter case in the search *)

Lemma lower_char_idem c : JS.lower_char (JS.lower_char c) = JS.lower_char c.
Proof.
  unfold JS.lower_char at 2. destruct (JS.in_range "A" "Z" c) eqn:Hc.
  - unfold JS.lower_char.
    assert (JS.in_range "A" "Z" (ascii_of_nat (nat_of_ascii c + 32)) = false) as ->;
      [|by rewrite Hc].
    apply in_range_between in Hc. unfold between in Hc. code_units.
    apply not_true_iff_false. rewrite in_range_between. unfold between. code_units.
    rewrite nat_ascii_embedding by lia. lia.
  - unfold JS.lower_char. by rewrite Hc.
Qed.

Lemma toLowerCase_idem s : JS.toLowerCase (JS.toLowerCase s) = JS.toLowerCase s.
Proof. induction s as [|c s IH]; simpl; [done|]. by rewrite lower_char_idem, IH. Qed.

Lemma text_or_empty_lower v :
  JS.text_or_empty (JS.toLowerCase <$> v) = JS.toLowerCase (JS.text_or_empty v).
Proof. by destruct v. Qed.

Lemma kept_lower_text term l : kept term (lower_text l) = kept term l.
Proof.
  unfold kept, lesson_matches, lower_text. simpl.
  by rewrite !text_or_empty_lower, !toLowerCase_idem.
Qed.

Lemma filter_map {A B} (f : B → bool) (g : A → B) (l : list A) :
  List.filter f (map g l) = map g (List.filter (λ x, f (g x)) l).
Proof.
  induction l as [|x l IH]; simpl; [done|].
  destruct (f (g x)); simpl; by rewrite IH.
Qed.

(** X17.  The search ignores letter case on both sides: a query that
    differs from the current one in letter case only, run on the catalog
    with subjects and locations put in lower case, finds the same lessons
    in the same order. *)
Theorem search_ignores_case (s : App) (q : string) :
  JS.toLowerCase q = JS.toLowerCase (searchQuery s) →
  searchedLessons (set_searchQuery q (set_lessons (map lower_text (lessons s)) s))
  = map lower_text (searchedLessons s).
Proof.
  intros Hq. rewrite !searchedLessons_filter. simpl. rewrite Hq, filter_map.
  f_equal. apply filter_ext_elem. intros l _. apply kept_lower_text.
Qed.

Lemma search_ignores_case_witness :
  searchedLessons
    (set_searchQuery "MATH"
       (set_lessons (map lower_text [math; art])
          (set_searchQuery "Math" (set_lessons [math; art] initial))))
  = map lower_text
      (searchedLessons (set_searchQuery "Math" (set_lessons [math; art] initial))).
Proof.
  exact (search_ignores_case (set_searchQuery "Math" (set_lessons [math; art] initial))
           "MATH" eq_refl).
Defined.
